(** * AI Production Assistant: task store, slash-command dispatch and
      assistant gateway of [src/main.py]

    The Flask application keeps one SQLite table [tasks] and exposes it
    through a Slack slash command ([/task]), two JSON endpoints ([/tasks],
    [/chat]) and a Slack event webhook.  This file embeds the store
    functions ([init_db], [create_task], [get_user_tasks], [get_all_tasks],
    [complete_task]), the handlers ([slack_commands], [slack_events],
    [chat], [tasks]) and the gateway ([chat_with_openai]) as Rocq
    functions and proves the properties of the specification about them.

    Conventions.
    - A Python [str] is a [string] holding its UTF-8 bytes.  The program
      only compares text against ASCII literals and splits on the ASCII
      space, so byte-wise and code-point-wise readings agree.
    - A call that may raise returns [py A]: [Ret a] or [Raise e].
    - The table is the list of its rows in rowid order together with the
      [sqlite_sequence] counter that [AUTOINCREMENT] maintains.
    - [CURRENT_TIMESTAMP] is an input [now : Z] (seconds); its text form
      ['YYYY-MM-DD HH:MM:SS'] orders like the number.
    - The external completion service is an input of the gateway. *)

From Stdlib Require Import Ascii String.
From stdpp Require Import base numbers list sorting strings pretty.

Open Scope string_scope.
Open Scope Z_scope.

(** ** Python outcomes *)

Inductive exn : Type :=
  | ValueError           (* int() on a malformed literal                 *)
  | OverflowError        (* int too large to bind as SQLite INTEGER      *)
  | AttributeError       (* method looked up on None                     *)
  | IndexError           (* choices[0] of an empty list                  *)
  | IntegrityError       (* sqlite3: NOT NULL constraint failed          *)
  | OperationalError     (* sqlite3: database or disk is full            *)
  | AuthenticationError  (* openai.error.AuthenticationError             *)
  | RateLimitError       (* openai.error.RateLimitError                  *)
  | OtherError.          (* any other subclass of Exception              *)

Inductive py (A : Type) : Type :=
  | Ret (a : A)
  | Raise (e : exn).
Arguments Ret {A} a.
Arguments Raise {A} e.

Global Instance py_ret : MRet py := λ A a, Ret a.

Global Instance py_bind : MBind py := λ A B k m,
  match m with
  | Ret a => k a
  | Raise e => Raise e
  end.

(** [try: body except Exception as e: handler e] *)
Definition try_except {A} (body : py A) (handler : exn → A) : A :=
  match body with
  | Ret a => a
  | Raise e => handler e
  end.

(** ** Text primitives of Python used by the program *)

Definition code (c : ascii) : Z := Z.of_N (N_of_ascii c).

Definition is_ascii_char (c : ascii) : bool := bool_decide (code c < 128).

Fixpoint is_ascii (s : string) : bool :=
  match s with
  | "" => true
  | String c s' => is_ascii_char c && is_ascii s'
  end.

(** [str.lower()] on one character: only A-Z change among the ASCII
    characters.  No character outside ASCII lowers to a letter of the
    literals the program compares against, so for those comparisons the
    bytes of other characters may stay as they are. *)
Definition lower_char (c : ascii) : ascii :=
  if bool_decide (65 ≤ code c ≤ 90)
  then ascii_of_N (N_of_ascii c + 32)
  else c.

Fixpoint lower (s : string) : string :=
  match s with
  | "" => ""
  | String c s' => String (lower_char c) (lower s')
  end.

(** [text.split(' ', 1)]: the part before the first space and, when
    there is a space, the whole remainder after that one space. *)
Fixpoint cut_at_space (s : string) : string * option string :=
  match s with
  | "" => ("", None)
  | String c s' =>
      if bool_decide (c = " "%char) then ("", Some s')
      else let '(a, r) := cut_at_space s' in (String c a, r)
  end.

Definition split_space_1 (s : string) : list string :=
  match cut_at_space s with
  | (a, Some r) => [a; r]
  | (a, None) => [a]
  end.

Fixpoint starts_with (p s : string) : bool :=
  match p, s with
  | "", _ => true
  | String a p', String b s' => bool_decide (a = b) && starts_with p' s'
  | String _ _, "" => false
  end.

(** [needle in s] *)
Fixpoint contains (needle s : string) : bool :=
  starts_with needle s ||
  match s with
  | "" => false
  | String _ s' => contains needle s'
  end.

(** Whitespace skipped by [int()] around an ASCII literal. *)
Definition is_int_space (c : ascii) : bool :=
  bool_decide (9 ≤ code c ≤ 13) || bool_decide (code c = 32).

(** Whitespace removed by [str.strip()] (ASCII part). *)
Definition is_str_space (c : ascii) : bool :=
  is_int_space c || bool_decide (28 ≤ code c ≤ 31).

Fixpoint lstrip (sp : ascii → bool) (s : string) : string :=
  match s with
  | "" => ""
  | String c s' => if sp c then lstrip sp s' else s
  end.

Fixpoint all_space (sp : ascii → bool) (s : string) : bool :=
  match s with
  | "" => true
  | String c s' => sp c && all_space sp s'
  end.

Fixpoint rstrip (sp : ascii → bool) (s : string) : string :=
  match s with
  | "" => ""
  | String c s' => if all_space sp s then "" else String c (rstrip sp s')
  end.

Definition strip (s : string) : string :=
  rstrip is_str_space (lstrip is_str_space s).

Definition digit_of (c : ascii) : option Z :=
  if bool_decide (48 ≤ code c ≤ 57) then Some (code c - 48) else None.

(** Digits of a base-10 literal after the first digit: a single
    underscore may separate two digits; trailing whitespace is allowed;
    anything else makes the literal invalid. *)
Fixpoint int_digits (acc : Z) (s : string) : option Z :=
  match s with
  | "" => Some acc
  | String c s' =>
      match digit_of c with
      | Some d => int_digits (10 * acc + d) s'
      | None =>
          if bool_decide (c = "_"%char) then
            match s' with
            | String c2 s'' =>
                match digit_of c2 with
                | Some d => int_digits (10 * acc + d) s''
                | None => None
                end
            | "" => None
            end
          else if all_space is_int_space s then Some acc
          else None
      end
  end.

Definition int_unsigned (s : string) : option Z :=
  match s with
  | String c s' =>
      match digit_of c with
      | Some d => int_digits d s'
      | None => None
      end
  | "" => None
  end.

(** [int(s)] for ASCII text [s]: [None] stands for [ValueError].
    Decimal digits and spaces outside ASCII, which [int] also accepts,
    and the interpreter's limit on the number of digits (4300 by
    default where it exists) are outside this model.  The handlers
    below that take [int_] as an argument ([slack_commands_with]) do
    not depend on it. *)
Definition int_literal (s : string) : option Z :=
  match lstrip is_int_space s with
  | String "-" s' => Z.opp <$> int_unsigned s'
  | String "+" s' => int_unsigned s'
  | s' => int_unsigned s'
  end.

Definition py_int (s : string) : py Z :=
  match int_literal s with
  | Some z => Ret z
  | None => Raise ValueError
  end.

(** ** The [tasks] table

    Columns as [init_db] declares them.  [title] is [NOT NULL];
    [status] and the two timestamps always take their defaults on
    insert, so they are never NULL either; the remaining text columns
    hold NULL ([None]) when Python passes [None]. *)

Record task : Type := Task {
  col_id : Z;
  col_title : string;
  col_description : option string;
  col_status : string;
  col_created_at : Z;
  col_updated_at : Z;
  col_user_id : option string;
  col_channel_id : option string
}.

Global Instance task_eq_dec : EqDecision task.
Proof. solve_decision. Defined.

Record db : Type := Db {
  tasks_table : list task;
  sqlite_sequence : Z
}.

Global Instance db_eq_dec : EqDecision db.
Proof. solve_decision. Defined.

(** [CREATE TABLE IF NOT EXISTS]: a database file without the table
    ([None]) gets an empty one; an existing table is left as it is. *)
Definition init_db (file : option db) : db :=
  match file with
  | Some d => d
  | None => Db [] 0
  end.

Definition INT64_MAX : Z := 2 ^ 63 - 1.
Definition INT64_MIN : Z := - 2 ^ 63.

(** Python integers bound to a [?] must fit SQLite's 64-bit INTEGER,
    otherwise [execute] raises [OverflowError]. *)
Definition bind_int (z : Z) : py Z :=
  if bool_decide (INT64_MIN ≤ z ≤ INT64_MAX) then Ret z
  else Raise OverflowError.

(** [column = ?] in a [WHERE] clause: true only when both sides are
    non-NULL and equal. *)
Definition sql_text_eq (column param : option string) : bool :=
  match column, param with
  | Some a, Some b => bool_decide (a = b)
  | _, _ => false
  end.

Definition max_rowid (rows : list task) : Z :=
  foldr Z.max 0 (col_id <$> rows).

(** Rowid chosen by [AUTOINCREMENT]: one more than the largest rowid
    the table has ever held; [SQLITE_FULL] once the largest 64-bit
    value has been used. *)
Definition next_rowid (d : db) : py Z :=
  let last := Z.max (sqlite_sequence d) (max_rowid (tasks_table d)) in
  if bool_decide (last < INT64_MAX) then Ret (last + 1)
  else Raise OperationalError.

(** [create_task(title, user_id, channel_id=None, description="")].
    [title] is [None] when Python passes [None], which the [NOT NULL]
    constraint rejects.  Nothing is committed when [execute] raises. *)
Definition create_task (now : Z) (title : option string)
    (user_id channel_id description : option string) (d : db) : py (Z * db) :=
  match title with
  | None => Raise IntegrityError
  | Some t =>
      task_id ← next_rowid d;
      let row := Task task_id t description "pending" now now
                      user_id channel_id in
      Ret (task_id, Db (tasks_table d ++ [row]) task_id)
  end.

(** [ORDER BY created_at DESC].  Among rows with equal [created_at]
    the order is that of the merge sort here; SQLite does not fix it,
    and the statements below do not depend on it. *)
Definition created_at_desc (a b : task) : Prop :=
  col_created_at b ≤ col_created_at a.

Global Instance created_at_desc_dec : RelDecision created_at_desc.
Proof. intros a b. unfold created_at_desc. apply _. Defined.

Definition order_by_created_at_desc : list task → list task :=
  merge_sort created_at_desc.

Definition owned_by (user_id : option string) (r : task) : bool :=
  sql_text_eq (col_user_id r) user_id.

Definition get_user_tasks (user_id : option string) (d : db) : list task :=
  order_by_created_at_desc (filter (λ r, owned_by user_id r) (tasks_table d)).

Definition get_all_tasks (d : db) : list task :=
  order_by_created_at_desc (tasks_table d).

(** [WHERE id = ? AND user_id = ?] *)
Definition complete_where (task_id : Z) (user_id : option string)
    (r : task) : bool :=
  bool_decide (col_id r = task_id) && owned_by user_id r.

(** [SET status = 'completed', updated_at = CURRENT_TIMESTAMP] *)
Definition set_completed (now : Z) (r : task) : task :=
  Task (col_id r) (col_title r) (col_description r) "completed"
       (col_created_at r) now (col_user_id r) (col_channel_id r).

Definition rowcount (task_id : Z) (user_id : option string)
    (rows : list task) : Z :=
  Z.of_nat (length (filter (λ r, complete_where task_id user_id r) rows)).

Definition complete_task (now : Z) (task_id : Z) (user_id : option string)
    (d : db) : py (bool * db) :=
  tid ← bind_int task_id;
  let hit := complete_where tid user_id in
  let affected := rowcount tid user_id (tasks_table d) in
  Ret (bool_decide (affected > 0),
       Db ((λ r, if hit r then set_completed now r else r) <$> tasks_table d)
          (sqlite_sequence d)).

(** ** Request data

    A key of a JSON object or form that the handlers read: missing,
    [null], or a text value.  (Values of other JSON types are outside
    this model.) *)
Inductive jfield : Type :=
  | Absent
  | Null
  | Str (s : string).

Global Instance jfield_eq_dec : EqDecision jfield.
Proof. solve_decision. Defined.

(** [d.get(k)] *)
Definition get (f : jfield) : option string :=
  match f with
  | Str s => Some s
  | Absent | Null => None
  end.

(** [d.get(k, dflt)]: the default replaces a missing key only. *)
Definition get_default (f : jfield) (dflt : string) : option string :=
  match f with
  | Absent => Some dflt
  | Null => None
  | Str s => Some s
  end.

(** Truth value of an optional text: [None] and [''] are false. *)
Definition truthy (o : option string) : bool :=
  match o with
  | Some s => negb (bool_decide (s = ""))
  | None => false
  end.

(** [l[i]] *)
Definition index {A} (l : list A) (i : nat) : py A :=
  match l !! i with
  | Some x => Ret x
  | None => Raise IndexError
  end.

(** [o.method()] where [o] may be [None] *)
Definition attr {A} (o : option A) : py A :=
  match o with
  | Some x => Ret x
  | None => Raise AttributeError
  end.

(** ** The assistant gateway

    [ChatCompletion_create message] stands for the call
    [openai.ChatCompletion.create(model="gpt-4", ...)] with the fixed
    system prompt: it yields the [message.content] of each returned
    choice, or raises. *)
Record openai_env : Type := OpenAI {
  api_key : option string;
  ChatCompletion_create : option string → py (list (option string))
}.

Definition NOT_CONFIGURED : string :=
  "OpenAI API key not configured. Please set OPENAI_API_KEY environment variable.".
Definition AUTH_FAILED : string :=
  "Authentication failed. Please check your OpenAI API key.".
Definition RATE_LIMITED : string :=
  "Rate limit exceeded. Please try again later.".
Definition GATEWAY_ERROR : string :=
  "Sorry, I encountered an error processing your request.".

(** [try: body except ...: handler]: the handler sees the exception of
    the body and may itself return or raise. *)
Definition try_catch {A} (body : py A) (handler : exn → py A) : py A :=
  match body with
  | Ret a => Ret a
  | Raise e => handler e
  end.

Definition chat_with_openai (env : openai_env) (message : option string)
    (user_id : option string) : py string :=
  try_catch
    (if negb (truthy (api_key env)) then Ret NOT_CONFIGURED
     else
       response ← ChatCompletion_create env message;
       choice ← index response 0;
       content ← attr choice;
       Ret (strip content))
    (λ e, match e with
          | AuthenticationError => Ret AUTH_FAILED
          | RateLimitError => Ret RATE_LIMITED
          | _ => Ret GATEWAY_ERROR
          end).

(** One invocation of the gateway: the arguments of a call of
    [chat_with_openai]. *)
Definition gateway_call : Type := option string * option string.

(** ** [/slack/events] *)

Record slack_event : Type := SlackEvent {
  event_type : jfield;
  event_bot_id : jfield;
  event_user : jfield;
  event_channel : jfield;
  event_text : jfield
}.

(** The JSON body: [payload_event = None] when the key [event] is
    missing, which [data.get('event', {})] reads as an empty object. *)
Record events_payload : Type := EventsPayload {
  payload_type : jfield;
  payload_challenge : jfield;
  payload_event : option slack_event
}.

Inductive events_reply : Type :=
  | EventsChallenge (challenge : option string)    (* 200 *)
  | EventsOk                                       (* 200, status ok *)
  | EventsError (error : string) (http : Z).

Definition empty_event : slack_event :=
  SlackEvent Absent Absent Absent Absent Absent.

Definition TRIGGER : string := "ai assistant".

(** Body of [slack_events] inside its [try], from the value that
    [request.get_json()] returned: [data = None] is a JSON body that is
    false for Python ([null], [{}]), [Some] a JSON object whose fields
    are text, null or missing.  The result pairs the outcome of the
    body with the gateway calls made while it ran.  The request as a
    whole, with a body that cannot be read or is no object, is
    [slack_events_request] below. *)
Definition slack_events_try (env : openai_env) (data : option events_payload)
    : py events_reply * list gateway_call :=
  match data with
  | None => (Ret (EventsError "No data received" 400), [])
  | Some data =>
      if bool_decide (get (payload_type data) = Some "url_verification")
      then (Ret (EventsChallenge (get (payload_challenge data))), [])
      else
        let event := default empty_event (payload_event data) in
        if bool_decide (get (event_type event) = Some "message")
           && negb (truthy (get (event_bot_id event)))
        then
          let user_id := get (event_user event) in
          match attr (get_default (event_text event) "") with
          | Raise e => (Raise e, [])
          | Ret text =>
              if contains TRIGGER (lower text) then
                (response ← chat_with_openai env (Some text) user_id;
                 Ret EventsOk,
                 [(Some text, user_id)])
              else (Ret EventsOk, [])
          end
        else (Ret EventsOk, [])
  end.

Definition slack_events (env : openai_env) (data : option events_payload)
    : events_reply * list gateway_call :=
  let '(outcome, calls) := slack_events_try env data in
  (try_except outcome (λ _, EventsError "Internal error" 500), calls).

(** ** [/slack/commands] *)

Record command_form : Type := CommandForm {
  form_command : option string;
  form_text : option string;
  form_user_id : option string;
  form_channel_id : option string
}.

Record slack_reply : Type := SlackReply {
  reply_text : string;
  response_type : string;
  reply_http : Z
}.

Definition ephemeral (text : string) : slack_reply :=
  SlackReply text "ephemeral" 200.
Definition in_channel (text : string) : slack_reply :=
  SlackReply text "in_channel" 200.

Definition USAGE : string :=
  "Usage: /task [create|list|complete] <description>".
Definition INVALID_ID : string :=
  "Please provide a valid task ID number.".

Definition newline : string := String (ascii_of_N 10) "".

(** [sep.join(l)] *)
Fixpoint join (sep : string) (l : list string) : string :=
  match l with
  | [] => ""
  | [x] => x
  | x :: l' => x +:+ sep +:+ join sep l'
  end.

(** [f"#{task[0]}: {task[1]} ({task[3]})"] *)
Definition task_line (t : task) : string :=
  "#" +:+ pretty (col_id t) +:+ ": " +:+ col_title t
      +:+ " (" +:+ col_status t +:+ ")".

Definition list_reply (user_id : option string) (d : db) : slack_reply :=
  let tasks := get_user_tasks user_id d in
  let task_list :=
    if bool_decide (tasks = []) then "No tasks found."
    else join newline (task_line <$> tasks) in
  ephemeral ("Your tasks:" +:+ newline +:+ task_list).

(** The [/task] branch after the empty-text check. *)
Definition task_command (now : Z) (text : string)
    (user_id channel_id : option string) (d : db) : py (slack_reply * db) :=
  let parts := split_space_1 text in
  parts_0 ← index parts 0;
  let action := lower parts_0 in
  if bool_decide (action = "create") && bool_decide (1 < length parts)%nat
  then
    parts_1 ← index parts 1;
    '(task_id, d') ← create_task now (Some parts_1) user_id channel_id
                                 (Some "") d;
    Ret (in_channel ("Task created with ID: " +:+ pretty task_id), d')
  else if bool_decide (action = "list")
  then Ret (list_reply user_id d, d)
  else if bool_decide (action = "complete")
          && bool_decide (1 < length parts)%nat
  then
    try_catch
      (parts_1 ← index parts 1;
       task_id ← py_int parts_1;
       '(done, d') ← complete_task now task_id user_id d;
       if done : bool
       then Ret (in_channel ("Task #" +:+ pretty task_id
                               +:+ " marked as complete!"), d')
       else Ret (ephemeral ("Task #" +:+ pretty task_id
                              +:+ " not found or not yours."), d'))
      (λ e, match e with
            | ValueError => Ret (ephemeral INVALID_ID, d)
            | _ => Raise e
            end)
  else Ret (ephemeral USAGE, d).

Definition slack_commands_try (env : openai_env) (now : Z)
    (form : command_form) (d : db)
    : py (slack_reply * db) * list gateway_call :=
  let command := form_command form in
  let text := default "" (form_text form) in
  let user_id := form_user_id form in
  let channel_id := form_channel_id form in
  if bool_decide (command = Some "/ai") then
    if bool_decide (text = "") then
      (Ret (ephemeral
              "Please provide a message to chat with the AI assistant.", d),
       [])
    else
      (response ← chat_with_openai env (Some text) user_id;
       Ret (in_channel response, d),
       [(Some text, user_id)])
  else if bool_decide (command = Some "/task") then
    if bool_decide (text = "") then (Ret (ephemeral USAGE, d), [])
    else (task_command now text user_id channel_id d, [])
  else (Ret (ephemeral "Unknown command", d), []).

(** [slack_commands]: an exception leaves the store as it was (nothing
    was committed) and answers with status 500. *)
Definition slack_commands (env : openai_env) (now : Z)
    (form : command_form) (d : db)
    : slack_reply * db * list gateway_call :=
  let '(outcome, calls) := slack_commands_try env now form d in
  (try_except outcome
     (λ _, (SlackReply "An error occurred processing your command."
                       "ephemeral" 500, d)),
   calls).

(** ** [/chat] *)

Record chat_post : Type := ChatPost {
  chat_message : jfield;
  chat_user_id : jfield
}.

Inductive chat_reply : Type :=
  | ChatResponse (response : string) (timestamp : Z)   (* 200 *)
  | ChatError (error : string) (http : Z).

Definition DEFAULT_USER : string := "api_user".

(** Body of [chat] after [request.get_json()] returned: [data = None]
    is a JSON body that is false for Python ([null], [{}]).  The case
    that [get_json] raises is in [chat_post_json] below. *)
Definition chat_try (env : openai_env) (now : Z) (data : option chat_post)
    : py chat_reply * list gateway_call :=
  match data with
  | None => (Ret (ChatError "Message is required" 400), [])
  | Some data =>
      if bool_decide (chat_message data = Absent)
      then (Ret (ChatError "Message is required" 400), [])
      else
        let message := get (chat_message data) in
        let user_id := get_default (chat_user_id data) DEFAULT_USER in
        (response ← chat_with_openai env message user_id;
         Ret (ChatResponse response now),
         [(message, user_id)])
  end.

Definition chat (env : openai_env) (now : Z) (data : option chat_post)
    : chat_reply * list gateway_call :=
  let '(outcome, calls) := chat_try env now data in
  (try_except outcome (λ _, ChatError "Failed to process chat message" 500),
   calls).

(** ** [/tasks] *)

Record task_post : Type := TaskPost {
  post_title : jfield;
  post_description : jfield;
  post_user_id : jfield;
  post_channel_id : jfield
}.

Inductive tasks_request : Type :=
  | GET (user_id : option string)           (* ?user_id=... *)
  | POST (data : option task_post).

Inductive tasks_reply : Type :=
  | TaskList (tasks : list task)                        (* 200 *)
  | TaskCreated (id : Z) (message : string)             (* 201 *)
  | TasksError (error : string) (http : Z).

(** Body of [tasks] after the request was read: for a [POST],
    [data = None] is a JSON body that is false for Python ([null],
    [{}]) and [Some] a JSON object whose fields are text, null or
    missing.  The case that [get_json] raises is in [tasks_post_json]
    below. *)
Definition tasks_try (now : Z) (req : tasks_request) (d : db)
    : py (tasks_reply * db) :=
  match req with
  | GET user_id =>
      let tasks :=
        if truthy user_id then get_user_tasks user_id d
        else get_all_tasks d in
      Ret (TaskList tasks, d)
  | POST None => Ret (TasksError "Title is required" 400, d)
  | POST (Some data) =>
      if bool_decide (post_title data = Absent)
      then Ret (TasksError "Title is required" 400, d)
      else
        let title := get (post_title data) in
        let description := get_default (post_description data) "" in
        let user_id := get_default (post_user_id data) DEFAULT_USER in
        let channel_id := get (post_channel_id data) in
        '(task_id, d') ← create_task now title user_id channel_id
                                     description d;
        Ret (TaskCreated task_id "Task created successfully", d')
  end.

Definition tasks (now : Z) (req : tasks_request) (d : db)
    : tasks_reply * db :=
  try_except (tasks_try now req d)
             (λ _, (TasksError "Failed to process task request" 500, d)).

(** ** The command router seen as a function

    What the [/task] branch of [slack_commands] decides from the text
    alone, before it touches the store. *)
Inductive command : Type :=
  | Create (title : string)
  | List
  | Complete (task_id : Z)
  | Usage (message : string)
  | ParseError (message : string).

Definition route (text : string) : command :=
  if bool_decide (text = "") then Usage USAGE
  else
    let parts := split_space_1 text in
    let action := lower (default "" (parts !! 0%nat)) in
    let rest := parts !! 1%nat in
    if bool_decide (action = "create") && bool_decide (is_Some rest)
    then Create (default "" rest)
    else if bool_decide (action = "list") then List
    else if bool_decide (action = "complete") && bool_decide (is_Some rest)
    then match int_literal (default "" rest) with
         | Some task_id => Complete task_id
         | None => ParseError INVALID_ID
         end
    else Usage USAGE.

(** What [slack_commands] does with a routed command. *)
Definition dispatch (now : Z) (c : command)
    (user_id channel_id : option string) (d : db) : py (slack_reply * db) :=
  match c with
  | Create title =>
      '(task_id, d') ← create_task now (Some title) user_id channel_id
                                   (Some "") d;
      Ret (in_channel ("Task created with ID: " +:+ pretty task_id), d')
  | List => Ret (list_reply user_id d, d)
  | Complete task_id =>
      '(done, d') ← complete_task now task_id user_id d;
      if done : bool
      then Ret (in_channel ("Task #" +:+ pretty task_id
                              +:+ " marked as complete!"), d')
      else Ret (ephemeral ("Task #" +:+ pretty task_id
                             +:+ " not found or not yours."), d')
  | Usage message => Ret (ephemeral message, d)
  | ParseError message => Ret (ephemeral message, d)
  end.

(** ** The slash command with [int] as an argument

    The same handler with the builtin [int] taken as an input
    [int_ : string → option Z] ([None] for [ValueError]), so that
    nothing depends on which texts [int] accepts. *)

Definition py_int_with (int_ : string → option Z) (s : string) : py Z :=
  match int_ s with
  | Some z => Ret z
  | None => Raise ValueError
  end.

Definition task_command_with (int_ : string → option Z) (now : Z)
    (text : string) (user_id channel_id : option string) (d : db)
    : py (slack_reply * db) :=
  let parts := split_space_1 text in
  parts_0 ← index parts 0;
  let action := lower parts_0 in
  if bool_decide (action = "create") && bool_decide (1 < length parts)%nat
  then
    parts_1 ← index parts 1;
    '(task_id, d') ← create_task now (Some parts_1) user_id channel_id
                                 (Some "") d;
    Ret (in_channel ("Task created with ID: " +:+ pretty task_id), d')
  else if bool_decide (action = "list")
  then Ret (list_reply user_id d, d)
  else if bool_decide (action = "complete")
          && bool_decide (1 < length parts)%nat
  then
    try_catch
      (parts_1 ← index parts 1;
       task_id ← py_int_with int_ parts_1;
       '(done, d') ← complete_task now task_id user_id d;
       if done : bool
       then Ret (in_channel ("Task #" +:+ pretty task_id
                               +:+ " marked as complete!"), d')
       else Ret (ephemeral ("Task #" +:+ pretty task_id
                              +:+ " not found or not yours."), d'))
      (λ e, match e with
            | ValueError => Ret (ephemeral INVALID_ID, d)
            | _ => Raise e
            end)
  else Ret (ephemeral USAGE, d).

Definition slack_commands_try_with (int_ : string → option Z)
    (env : openai_env) (now : Z) (form : command_form) (d : db)
    : py (slack_reply * db) * list gateway_call :=
  let command := form_command form in
  let text := default "" (form_text form) in
  let user_id := form_user_id form in
  let channel_id := form_channel_id form in
  if bool_decide (command = Some "/ai") then
    if bool_decide (text = "") then
      (Ret (ephemeral
              "Please provide a message to chat with the AI assistant.", d),
       [])
    else
      (response ← chat_with_openai env (Some text) user_id;
       Ret (in_channel response, d),
       [(Some text, user_id)])
  else if bool_decide (command = Some "/task") then
    if bool_decide (text = "") then (Ret (ephemeral USAGE, d), [])
    else (task_command_with int_ now text user_id channel_id d, [])
  else (Ret (ephemeral "Unknown command", d), []).

Definition slack_commands_with (int_ : string → option Z)
    (env : openai_env) (now : Z) (form : command_form) (d : db)
    : slack_reply * db * list gateway_call :=
  let '(outcome, calls) := slack_commands_try_with int_ env now form d in
  (try_except outcome
     (λ _, (SlackReply "An error occurred processing your command."
                       "ephemeral" 500, d)),
   calls).

Definition route_with (int_ : string → option Z) (text : string) : command :=
  if bool_decide (text = "") then Usage USAGE
  else
    let parts := split_space_1 text in
    let action := lower (default "" (parts !! 0%nat)) in
    let rest := parts !! 1%nat in
    if bool_decide (action = "create") && bool_decide (is_Some rest)
    then Create (default "" rest)
    else if bool_decide (action = "list") then List
    else if bool_decide (action = "complete") && bool_decide (is_Some rest)
    then match int_ (default "" rest) with
         | Some task_id => Complete task_id
         | None => ParseError INVALID_ID
         end
    else Usage USAGE.

(** ** The JSON requests as a whole

    [request.get_json()] is the first statement inside the [try] of
    [chat], [tasks] and [slack_events]: its outcome, the value or an
    exception, is the input here.  An exception is answered by the
    [except] branch of the handler. *)

Definition chat_post_json (env : openai_env) (now : Z)
    (body : py (option chat_post)) : chat_reply * list gateway_call :=
  match body with
  | Ret data => chat env now data
  | Raise _ => (ChatError "Failed to process chat message" 500, [])
  end.

Definition tasks_post_json (now : Z) (body : py (option task_post)) (d : db)
    : tasks_reply * db :=
  match body with
  | Ret data => tasks now (POST data) d
  | Raise _ => (TasksError "Failed to process task request" 500, d)
  end.

(** The value under the key [text] of an event: everything that is
    no text (null, a number, a list, ...) has no method [lower]. *)
Inductive text_field : Type :=
  | TextMissing                  (* no key: read as [''] *)
  | TextNotText
  | Text (s : string).

(** The value under the key [event]. *)
Inductive event_field : Type :=
  | EventMissing                 (* no key: read as an empty object *)
  | EventNotObject               (* null, or any value without [.get] *)
  | EventObject (type bot_id user : jfield) (text : text_field).

(** What [request.get_json()] gives [slack_events]. *)
Inductive events_body : Type :=
  | BodyUnreadable               (* [get_json] raises *)
  | BodyFalsy                    (* null, an empty object, ... *)
  | BodyNotObject                (* a true value without [.get] *)
  | BodyObject (type challenge : jfield) (event : event_field).

(** [event.get('text', '').lower()] *)
Definition text_lower (text : text_field) : py (string * string) :=
  match text with
  | TextMissing => Ret ("", lower "")
  | Text s => Ret (s, lower s)
  | TextNotText => Raise AttributeError
  end.

(** [data.get('event', {})] followed by the first [event.get]: a
    missing key gives the empty object. *)
Definition event_fields (event : event_field)
    : py (jfield * jfield * jfield * text_field) :=
  match event with
  | EventMissing => Ret (Absent, Absent, Absent, TextMissing)
  | EventNotObject => Raise AttributeError
  | EventObject type bot_id user text => Ret (type, bot_id, user, text)
  end.

Definition slack_events_request_try (env : openai_env) (body : events_body)
    : py events_reply * list gateway_call :=
  match body with
  | BodyUnreadable => (Raise OtherError, [])
  | BodyFalsy => (Ret (EventsError "No data received" 400), [])
  | BodyNotObject => (Raise AttributeError, [])
  | BodyObject type challenge event =>
      if bool_decide (get type = Some "url_verification")
      then (Ret (EventsChallenge (get challenge)), [])
      else
        match event_fields event with
        | Raise e => (Raise e, [])
        | Ret (event_type, bot_id, user, text) =>
            if bool_decide (get event_type = Some "message")
               && negb (truthy (get bot_id))
            then
              let user_id := get user in
              match text_lower text with
              | Raise e => (Raise e, [])
              | Ret (text, lowered) =>
                  if contains TRIGGER lowered then
                    (response ← chat_with_openai env (Some text) user_id;
                     Ret EventsOk,
                     [(Some text, user_id)])
                  else (Ret EventsOk, [])
              end
            else (Ret EventsOk, [])
        end
  end.

Definition slack_events_request (env : openai_env) (body : events_body)
    : events_reply * list gateway_call :=
  let '(outcome, calls) := slack_events_request_try env body in
  (try_except outcome (λ _, EventsError "Internal error" 500), calls).

(** The bodies that [slack_events] above takes, as [events_body]. *)
Definition events_body_of (data : option events_payload) : events_body :=
  match data with
  | None => BodyFalsy
  | Some data =>
      BodyObject (payload_type data) (payload_challenge data)
        match payload_event data with
        | Some e =>
            EventObject (event_type e) (event_bot_id e) (event_user e)
              match event_text e with
              | Absent => TextMissing
              | Null => TextNotText
              | Str s => Text s
              end
        | None => EventMissing
        end
  end.

Definition events_http (r : events_reply) : Z :=
  match r with
  | EventsChallenge _ | EventsOk => 200
  | EventsError _ http => http
  end.

Definition chat_http (r : chat_reply) : Z :=
  match r with
  | ChatResponse _ _ => 200
  | ChatError _ http => http
  end.

(** ** Runs of the store *)

Inductive op : Type :=
  | OpCreate (now : Z) (title user_id channel_id description : option string)
  | OpComplete (now : Z) (task_id : Z) (user_id : option string).

(** Store after an operation; an operation that raises commits
    nothing. *)
Definition exec (o : op) (d : db) : db :=
  match o with
  | OpCreate now title user_id channel_id description =>
      match create_task now title user_id channel_id description d with
      | Ret (_, d') => d'
      | Raise _ => d
      end
  | OpComplete now task_id user_id =>
      match complete_task now task_id user_id d with
      | Ret (_, d') => d'
      | Raise _ => d
      end
  end.

Definition exec_all (ops : list op) (d : db) : db :=
  foldl (λ d o, exec o d) d ops.

(** Ids handed out by the creates of a run that succeed, in order. *)
Fixpoint created_ids (ops : list op) (d : db) : list Z :=
  match ops with
  | [] => []
  | o :: ops' =>
      match o with
      | OpCreate now title user_id channel_id description =>
          match create_task now title user_id channel_id description d with
          | Ret (task_id, _) => [task_id]
          | Raise _ => []
          end
      | OpComplete _ _ _ => []
      end ++ created_ids ops' (exec o d)
  end.

(** Stores the program can be in: the table [init_db] creates, changed
    by any number of operations. *)
Inductive reachable : db → Prop :=
  | reachable_init : reachable (init_db None)
  | reachable_exec o d : reachable d → reachable (exec o d).

(** ** Invariants of the store *)

(** Largest rowid the table has ever held. *)
Definition high (d : db) : Z :=
  Z.max (sqlite_sequence d) (max_rowid (tasks_table d)).

Definition valid_status (r : task) : Prop :=
  col_status r = "pending" ∨ col_status r = "completed".

Record wf (d : db) : Prop := {
  wf_ids_unique : NoDup (col_id <$> tasks_table d);
  wf_ids_positive : Forall (λ r, 0 < col_id r) (tasks_table d);
  wf_status : Forall valid_status (tasks_table d)
}.

(** A status either stays or moves from pending to completed. *)
Definition status_step (old new : string) : Prop :=
  new = old ∨ (old = "pending" ∧ new = "completed").

(** Every row of [d] is still in [d'], at the same place, with the
    same id and owner, and its status has stayed or moved forward. *)
Definition preserves (d d' : db) : Prop :=
  ∀ k r, tasks_table d !! k = Some r →
    ∃ r', tasks_table d' !! k = Some r'
          ∧ col_id r' = col_id r
          ∧ col_user_id r' = col_user_id r
          ∧ status_step (col_status r) (col_status r').

(** The action of a command has no space in it. *)
Fixpoint has_space (s : string) : bool :=
  match s with
  | "" => false
  | String c s' => bool_decide (c = " "%char) || has_space s'
  end.

(** ** The router as the specification words it

    Section 4.2 of the specification, written out separately so that
    it can be compared with [route]: the text is split at its first run
    of whitespace, [create] needs a non-empty rest, [complete] needs a
    positive integer. *)
Fixpoint spec_split_whitespace_run (s : string) : string * string :=
  match s with
  | "" => ("", "")
  | String c s' =>
      if is_str_space c then ("", lstrip is_str_space s')
      else let '(a, r) := spec_split_whitespace_run s' in (String c a, r)
  end.

Definition spec_route (text : string) : command :=
  let '(action, rest) := spec_split_whitespace_run text in
  let action := lower action in
  if bool_decide (action = "create") then
    if bool_decide (rest = "") then Usage USAGE else Create rest
  else if bool_decide (action = "list") then List
  else if bool_decide (action = "complete") then
    match int_literal rest with
    | Some task_id =>
        if bool_decide (0 < task_id) then Complete task_id
        else ParseError INVALID_ID
    | None => ParseError INVALID_ID
    end
  else Usage USAGE.

Definition tab : string := String (ascii_of_N 9) "".

(** ** Sample data *)

Definition sample_task : task :=
  Task 1 "ship the deck" (Some "") "pending" 100 100 (Some "U1") (Some "C1").

Definition sample_db : db := Db [sample_task] 1.

Definition no_openai : openai_env := OpenAI None (λ _, Raise OtherError).

Definition rate_limited_openai : openai_env :=
  OpenAI (Some "sk-test") (λ _, Raise RateLimitError).

Definition trigger_event : slack_event :=
  SlackEvent (Str "message") Absent (Str "U1") (Str "C1")
             (Str "Hey AI Assistant, what is next?").

Definition trigger_payload : events_payload :=
  EventsPayload (Str "event_callback") Absent (Some trigger_event).

(** ** Request signing

    [hmac_sha256 key message] stands for
    [hmac.new(key.encode(), message.encode(), hashlib.sha256).hexdigest()];
    the hash itself is an input.  [secret] is [SLACK_SIGNING_SECRET]. *)

(** [hmac.compare_digest(a, b)] on two [str]: equality, and a
    [TypeError] when one of them has a character outside ASCII. *)
Definition compare_digest (a b : string) : py bool :=
  if is_ascii a && is_ascii b then Ret (bool_decide (a = b))
  else Raise OtherError.

Definition verify_slack_signature (hmac_sha256 : string → string → string)
    (secret : option string) (request_data timestamp signature : string)
    : py bool :=
  if negb (truthy secret) then Ret true
  else
    let basestring := "v0:" +:+ timestamp +:+ ":" +:+ request_data in
    let my_signature := "v0=" +:+ hmac_sha256 (default "" secret) basestring in
    compare_digest my_signature signature.

(** Outcome of a decorated endpoint: the handler ran, or the request
    was turned away with an error body and status. *)
Inductive gate (R : Type) : Type :=
  | Passed (r : R)
  | Rejected (error : string) (http : Z).
Arguments Passed {R} r.
Arguments Rejected {R} error http.

(** [require_slack_verification(f)]: [timestamp] and [signature] are
    the two request headers ([None] when missing), [request_data] the
    raw body, [f] what the handler does with the request.  An exception
    of the check is answered by the application's 500 handler. *)
Definition require_slack_verification {R}
    (hmac_sha256 : string → string → string) (secret : option string)
    (timestamp signature : option string) (request_data : string)
    (f : R) : gate R :=
  if negb (truthy secret) then Passed f
  else
    let timestamp := default "" timestamp in
    let signature := default "" signature in
    if bool_decide (timestamp = "") || bool_decide (signature = "")
    then Rejected "Unauthorized" 401
    else
      match verify_slack_signature hmac_sha256 secret request_data
                                   timestamp signature with
      | Ret true => Passed f
      | Ret false => Rejected "Unauthorized" 401
      | Raise _ => Rejected "Internal server error" 500
      end.

(** [POST /slack/commands] with its decorator: a request that is
    turned away never reaches the handler, so the store is as before
    and the gateway is not called. *)
Definition slack_commands_endpoint
    (hmac_sha256 : string → string → string) (secret : option string)
    (timestamp signature : option string) (request_data : string)
    (env : openai_env) (now : Z) (form : command_form) (d : db)
    : gate slack_reply * db * list gateway_call :=
  match require_slack_verification hmac_sha256 secret timestamp signature
          request_data (slack_commands env now form d) with
  | Passed (reply, d', calls) => (Passed reply, d', calls)
  | Rejected error http => (Rejected error http, d, [])
  end.

(** ** Further notions for runs *)

(** The value of [CURRENT_TIMESTAMP] an operation runs at. *)
Definition op_time (o : op) : Z :=
  match o with
  | OpCreate now _ _ _ _ => now
  | OpComplete now _ _ => now
  end.

(** The columns no statement of the program ever writes after the
    insert. *)
Definition same_data (r r' : task) : Prop :=
  col_id r' = col_id r
  ∧ col_title r' = col_title r
  ∧ col_description r' = col_description r
  ∧ col_created_at r' = col_created_at r
  ∧ col_user_id r' = col_user_id r
  ∧ col_channel_id r' = col_channel_id r.

(** Ids run 1, 2, 3, ... in insertion order and the sequence counter
    is the number of rows. *)
Definition dense (d : db) : Prop :=
  (∀ k r, tasks_table d !! k = Some r → col_id r = Z.of_nat k + 1)
  ∧ sqlite_sequence d = Z.of_nat (length (tasks_table d)).

(** A row is as it was, or it is completed now. *)
Definition kept (r r' : task) : Prop :=
  same_data r r' ∧ (r' = r ∨ col_status r' = "completed").

(** Timestamps of a table written up to time [T] by a clock that
    never went back. *)
Definition clocked (T : Z) (d : db) : Prop :=
  Forall (λ r, col_created_at r ≤ col_updated_at r ∧ col_updated_at r ≤ T)
         (tasks_table d)
  ∧ StronglySorted (λ a b, col_created_at a ≤ col_created_at b)
                   (tasks_table d).

(** HTTP status of a [/tasks] reply. *)
Definition tasks_http (r : tasks_reply) : Z :=
  match r with
  | TaskList _ => 200
  | TaskCreated _ _ => 201
  | TasksError _ http => http
  end.

(** * Properties *)

(** ** Store: queries *)

Section queries.
Implicit Types (d : db) (r : task) (rows : list task).

Lemma sql_text_eq_Some (column : option string) (u : string) :
  sql_text_eq column (Some u) = true ↔ column = Some u.
Proof.
  destruct column as [a|]; simpl; [|done].
  rewrite bool_decide_eq_true. split; [by intros ->|by intros [= ->]].
Qed.

(** A NULL parameter never satisfies [=]. *)
Lemma sql_text_eq_NULL (column : option string) :
  sql_text_eq column None = false.
Proof. by destruct column. Qed.

Lemma owned_by_Some (u : string) r :
  owned_by (Some u) r ↔ col_user_id r = Some u.
Proof. unfold owned_by. rewrite Is_true_true. apply sql_text_eq_Some. Qed.

Global Instance created_at_desc_total : Total created_at_desc.
Proof. intros a b. unfold created_at_desc. lia. Qed.

Global Instance created_at_desc_trans : Transitive created_at_desc.
Proof. intros a b c. unfold created_at_desc. lia. Qed.

Lemma order_by_Permutation rows : order_by_created_at_desc rows ≡ₚ rows.
Proof. apply merge_sort_Permutation. Qed.

Lemma order_by_Sorted rows :
  StronglySorted created_at_desc (order_by_created_at_desc rows).
Proof. apply StronglySorted_merge_sort; apply _. Qed.

Lemma elem_of_get_user_tasks (u : string) d r :
  r ∈ get_user_tasks (Some u) d ↔ r ∈ tasks_table d ∧ col_user_id r = Some u.
Proof.
  unfold get_user_tasks. rewrite order_by_Permutation, list_elem_of_filter.
  rewrite owned_by_Some. tauto.
Qed.

Lemma elem_of_get_all_tasks d r : r ∈ get_all_tasks d ↔ r ∈ tasks_table d.
Proof. unfold get_all_tasks. by rewrite order_by_Permutation. Qed.

(** A request without a user id ([None]) lists nothing. *)
Lemma get_user_tasks_NULL d : get_user_tasks None d = [].
Proof.
  unfold get_user_tasks.
  replace (filter _ (tasks_table d)) with (@nil task); [done|].
  symmetry. induction (tasks_table d) as [|r rows IH]; [done|].
  rewrite filter_cons. destruct (decide _) as [H|]; [|done].
  unfold owned_by in H. by rewrite sql_text_eq_NULL in H.
Qed.
End queries.

(** C7. For every owner id, [get_user_tasks] (the store's list-by-owner)
    returns exactly the rows of the table whose [user_id] is that owner,
    each as often as it occurs, most recent [created_at] first; the
    function is total, and for an owner without tasks the result is the
    empty list.  No returned row belongs to another owner. *)
Theorem get_user_tasks_exact (u : string) (d : db) :
  get_user_tasks (Some u) d
    ≡ₚ filter (λ r, col_user_id r = Some u) (tasks_table d)
  ∧ StronglySorted (λ a b, col_created_at b ≤ col_created_at a)
                   (get_user_tasks (Some u) d)
  ∧ (∀ r, r ∈ get_user_tasks (Some u) d → col_user_id r = Some u)
  ∧ ((∀ r, r ∈ tasks_table d → col_user_id r ≠ Some u) →
     get_user_tasks (Some u) d = []).
Proof.
  split_and!.
  - unfold get_user_tasks. rewrite order_by_Permutation.
    erewrite list_filter_iff; [done|].
    intros r. apply owned_by_Some.
  - apply order_by_Sorted.
  - intros r Hr. by apply elem_of_get_user_tasks in Hr as [_ ?].
  - intros Hnone.
    destruct (get_user_tasks (Some u) d) as [|r l] eqn:E; [done|].
    assert (Hr : r ∈ get_user_tasks (Some u) d) by (rewrite E; left).
    apply elem_of_get_user_tasks in Hr as [Hin Hu]. by destruct (Hnone r).
Qed.

Lemma get_user_tasks_exact_witness :
  (∀ r, r ∈ tasks_table sample_db → col_user_id r ≠ Some "U2")
  ∧ get_user_tasks (Some "U2") sample_db = [].
Proof.
  assert (Hnone : ∀ r, r ∈ tasks_table sample_db → col_user_id r ≠ Some "U2").
  { intros r Hr. apply list_elem_of_singleton in Hr. subst r. discriminate. }
  split; [exact Hnone|].
  exact (proj2 (proj2 (proj2 (get_user_tasks_exact "U2" sample_db))) Hnone).
Defined.

(** ** Store: completing a task *)

Section complete.
Implicit Types (d : db) (r : task) (rows : list task).

Lemma bind_int_fits (z : Z) : INT64_MIN ≤ z ≤ INT64_MAX → bind_int z = Ret z.
Proof. intros H. unfold bind_int. by rewrite bool_decide_eq_true_2. Qed.

Lemma bind_int_overflow (z : Z) :
  ¬ (INT64_MIN ≤ z ≤ INT64_MAX) → bind_int z = Raise OverflowError.
Proof. intros H. unfold bind_int. by rewrite bool_decide_eq_false_2. Qed.

Lemma complete_where_Some (task_id : Z) (u : string) r :
  complete_where task_id (Some u) r
  ↔ col_id r = task_id ∧ col_user_id r = Some u.
Proof.
  unfold complete_where. rewrite andb_True, bool_decide_spec.
  by rewrite owned_by_Some.
Qed.

Lemma complete_where_NULL (task_id : Z) r :
  complete_where task_id None r = false.
Proof.
  unfold complete_where, owned_by. rewrite sql_text_eq_NULL.
  apply andb_false_r.
Qed.

Lemma complete_where_set_completed now (task_id : Z) user_id r :
  complete_where task_id user_id (set_completed now r)
  = complete_where task_id user_id r.
Proof. done. Qed.

Lemma rowcount_pos (task_id : Z) user_id rows :
  rowcount task_id user_id rows > 0
  ↔ ∃ r, r ∈ rows ∧ complete_where task_id user_id r.
Proof.
  unfold rowcount.
  destruct (filter _ rows) as [|r l] eqn:E; simpl.
  - split; [lia|]. intros (r & Hin & Hr).
    by destruct (filter_nil_not_elem_of _ _ r E).
  - split; [intros _|lia]. exists r.
    assert (Hr : r ∈ filter (λ r, complete_where task_id user_id r) rows)
      by (rewrite E; left).
    apply list_elem_of_filter in Hr. tauto.
Qed.

Lemma rowcount_update now (task_id : Z) user_id rows :
  rowcount task_id user_id
    ((λ r, if complete_where task_id user_id r
           then set_completed now r else r) <$> rows)
  = rowcount task_id user_id rows.
Proof.
  unfold rowcount. f_equal.
  induction rows as [|r rows IH]; [done|].
  rewrite fmap_cons, !filter_cons.
  destruct (complete_where task_id user_id r) eqn:E.
  - rewrite complete_where_set_completed, E. simpl. by rewrite IH.
  - rewrite E. simpl. done.
Qed.

Lemma update_no_hit (hit : task → bool) (f : task → task) rows :
  (∀ r, r ∈ rows → hit r = false) →
  (λ r, if hit r then f r else r) <$> rows = rows.
Proof.
  intros H. induction rows as [|r rows IH]; [done|].
  rewrite fmap_cons, IH by (intros; apply H; by right).
  by rewrite (H r) by left.
Qed.

Lemma complete_task_fits now (task_id : Z) user_id d :
  INT64_MIN ≤ task_id ≤ INT64_MAX →
  complete_task now task_id user_id d =
    Ret (bool_decide (rowcount task_id user_id (tasks_table d) > 0),
         Db ((λ r, if complete_where task_id user_id r
                   then set_completed now r else r) <$> tasks_table d)
            (sqlite_sequence d)).
Proof. intros H. unfold complete_task. by rewrite bind_int_fits. Qed.

Lemma complete_task_overflow now (task_id : Z) user_id d :
  ¬ (INT64_MIN ≤ task_id ≤ INT64_MAX) →
  complete_task now task_id user_id d = Raise OverflowError.
Proof. intros H. unfold complete_task. by rewrite bind_int_overflow. Qed.

(** Without a user id the update matches no row. *)
Lemma complete_task_NULL now (task_id : Z) d :
  INT64_MIN ≤ task_id ≤ INT64_MAX →
  complete_task now task_id None d = Ret (false, d).
Proof.
  intros H. rewrite complete_task_fits by done.
  rewrite update_no_hit by (intros; apply complete_where_NULL).
  rewrite bool_decide_eq_false_2; [by destruct d|].
  rewrite rowcount_pos. intros (r & _ & Hr).
  by rewrite complete_where_NULL in Hr.
Qed.
End complete.

(** C1 (as the code has it).  For every task id that fits SQLite's
    64-bit INTEGER and every caller [owner], [complete_task] returns
    [True] exactly when the table has a row with that id whose
    [user_id] is the caller, whatever its status; each such row then
    has status ['completed'] and [updated_at] set to the current time,
    with every other column and every other row as before.  When no
    such row exists it returns [False] and the store is unchanged.
    Calling it again returns the same answer, so the owner's second
    call on a completed task is [True] again.  For a task id outside
    the 64-bit range the call raises [OverflowError] instead of
    returning, and nothing is changed. *)
Theorem complete_task_iff_owned (now task_id : Z) (owner : string) (d : db) :
  (INT64_MIN ≤ task_id ≤ INT64_MAX →
    ∃ (done : bool) (d' : db),
      complete_task now task_id (Some owner) d = Ret (done, d')
      ∧ (done = true ↔
         ∃ r, r ∈ tasks_table d ∧ col_id r = task_id
              ∧ col_user_id r = Some owner)
      ∧ (∀ k r, tasks_table d !! k = Some r →
           col_id r = task_id ∧ col_user_id r = Some owner →
           ∃ r', tasks_table d' !! k = Some r'
                 ∧ col_status r' = "completed" ∧ col_updated_at r' = now
                 ∧ col_id r' = col_id r ∧ col_title r' = col_title r
                 ∧ col_description r' = col_description r
                 ∧ col_created_at r' = col_created_at r
                 ∧ col_user_id r' = col_user_id r
                 ∧ col_channel_id r' = col_channel_id r)
      ∧ (∀ k r, tasks_table d !! k = Some r →
           ¬ (col_id r = task_id ∧ col_user_id r = Some owner) →
           tasks_table d' !! k = Some r)
      ∧ length (tasks_table d') = length (tasks_table d)
      ∧ sqlite_sequence d' = sqlite_sequence d
      ∧ (done = false → d' = d)
      ∧ (∀ now', ∃ d'',
           complete_task now' task_id (Some owner) d' = Ret (done, d'')))
  ∧ (¬ (INT64_MIN ≤ task_id ≤ INT64_MAX) →
     complete_task now task_id (Some owner) d = Raise OverflowError
     ∧ exec (OpComplete now task_id (Some owner)) d = d).
Proof.
  split; [|intros Hbig; unfold exec; by rewrite complete_task_overflow].
  intros Hfit. eexists _, _. split; [by apply complete_task_fits|].
  split_and!; simpl.
  - rewrite bool_decide_eq_true, rowcount_pos.
    by setoid_rewrite complete_where_Some.
  - intros k r Hk Hr. rewrite list_lookup_fmap, Hk. simpl.
    apply complete_where_Some, Is_true_true in Hr. rewrite Hr.
    eexists. split; [done|]. by simpl.
  - intros k r Hk Hr. rewrite list_lookup_fmap, Hk. simpl.
    rewrite <-complete_where_Some in Hr.
    by destruct (complete_where _ _ r).
  - by rewrite length_fmap.
  - done.
  - intros Hdone. apply bool_decide_eq_false in Hdone.
    rewrite rowcount_pos in Hdone.
    rewrite update_no_hit; [by destruct d|].
    intros r Hin. destruct (complete_where _ _ r) eqn:E; [|done].
    destruct Hdone. exists r. by rewrite E.
  - intros now'. eexists. rewrite complete_task_fits by done.
    simpl. by rewrite rowcount_update.
Qed.

Lemma complete_task_iff_owned_witness :
  INT64_MIN ≤ 1 ≤ INT64_MAX
  ∧ ∃ d', complete_task 200 1 (Some "U1") sample_db = Ret (true, d').
Proof.
  assert (Hfit : INT64_MIN ≤ 1 ≤ INT64_MAX) by (vm_compute; split; discriminate).
  split; [exact Hfit|].
  destruct (proj1 (complete_task_iff_owned 200 1 "U1" sample_db) Hfit)
    as (done & d' & Hrun & Hiff & _).
  exists d'. rewrite Hrun. f_equal. f_equal. apply Hiff.
  exists sample_task. split_and!; [left|done|done].
Defined.

(** C1, the claim as stated fails: for a task id that does not fit
    64 bits, which the slash command hands over as it is, the call
    raises instead of returning false, and the command is answered with
    status 500. *)
Lemma complete_task_raises_beyond_64_bits :
  complete_task 200 9223372036854775808 (Some "U1") sample_db
  = Raise OverflowError
  ∧ (∀ done d', complete_task 200 9223372036854775808 (Some "U1") sample_db
                ≠ Ret (done, d'))
  ∧ slack_commands no_openai 200
      (CommandForm (Some "/task") (Some "complete 9223372036854775808")
                   (Some "U1") (Some "C1")) sample_db
    = (SlackReply "An error occurred processing your command." "ephemeral"
                  500, sample_db, []).
Proof. split_and!; [reflexivity|discriminate|reflexivity]. Qed.

(** ** Store: creating tasks and the invariants of reachable stores *)

Section create.
Implicit Types (d : db) (r : task) (rows : list task).

Lemma max_rowid_nonneg rows : 0 ≤ max_rowid rows.
Proof.
  unfold max_rowid. induction rows as [|r rows IH]; csimpl; lia.
Qed.

Lemma max_rowid_ge rows r : r ∈ rows → col_id r ≤ max_rowid rows.
Proof.
  unfold max_rowid. induction rows as [|r' rows IH]; [by intros ?%elem_of_nil|].
  intros [->|Hin%IH]%elem_of_cons; csimpl; lia.
Qed.

Lemma max_rowid_snoc rows r :
  max_rowid (rows ++ [r]) = Z.max (max_rowid rows) (col_id r).
Proof.
  unfold max_rowid. induction rows as [|r' rows IH]; csimpl; [lia|].
  rewrite IH. lia.
Qed.

Lemma high_nonneg d : 0 ≤ high d.
Proof. unfold high. pose proof (max_rowid_nonneg (tasks_table d)). lia. Qed.

Lemma high_ge d r : r ∈ tasks_table d → col_id r ≤ high d.
Proof. intros H%max_rowid_ge. unfold high. lia. Qed.

Lemma next_rowid_Ret d (i : Z) :
  next_rowid d = Ret i ↔ i = high d + 1 ∧ high d < INT64_MAX.
Proof.
  unfold next_rowid. fold (high d). case_bool_decide as Hroom; split.
  - by intros [= <-].
  - by intros [-> _].
  - done.
  - by intros [_ ?].
Qed.

Lemma next_rowid_full d :
  ¬ high d < INT64_MAX → next_rowid d = Raise OperationalError.
Proof.
  intros H. unfold next_rowid. fold (high d).
  by rewrite bool_decide_eq_false_2.
Qed.

(** What a successful [create_task] returns and stores. *)
Lemma create_task_Ret now title user_id channel_id description d i d' :
  create_task now title user_id channel_id description d = Ret (i, d')
  ↔ ∃ t, title = Some t ∧ i = high d + 1 ∧ high d < INT64_MAX
         ∧ d' = Db (tasks_table d
                      ++ [Task i t description "pending" now now
                               user_id channel_id]) i.
Proof.
  unfold create_task. destruct title as [t|].
  2: { split; [done|]. by intros (t' & [=] & _). }
  destruct (next_rowid d) as [j|e] eqn:E; simpl.
  - apply next_rowid_Ret in E as [-> ?]. split.
    + intros [= <- <-]. by exists t.
    + by intros (t' & [= <-] & -> & _ & ->).
  - split; [done|]. intros (t' & _ & _ & Hlt & _).
    assert (next_rowid d = Ret (high d + 1)) by by apply next_rowid_Ret.
    congruence.
Qed.

Lemma create_task_high now title user_id channel_id description d i d' :
  create_task now title user_id channel_id description d = Ret (i, d') →
  high d' = i ∧ i = high d + 1.
Proof.
  intros (t & _ & -> & _ & ->)%create_task_Ret. split; [|done].
  unfold high at 1. simpl. rewrite max_rowid_snoc. simpl.
  unfold high. lia.
Qed.

Lemma complete_task_ids now (task_id : Z) user_id d done d' :
  complete_task now task_id user_id d = Ret (done, d') →
  col_id <$> tasks_table d' = col_id <$> tasks_table d
  ∧ sqlite_sequence d' = sqlite_sequence d.
Proof.
  unfold complete_task. destruct (bind_int task_id); [|done]. simpl.
  intros [= _ <-]. split; [|done]. simpl.
  rewrite <-list_fmap_compose. apply list_fmap_ext.
  intros k r _. simpl. by destruct (complete_where _ _ r).
Qed.

Lemma complete_task_high now (task_id : Z) user_id d done d' :
  complete_task now task_id user_id d = Ret (done, d') → high d' = high d.
Proof.
  intros [Hids Hseq]%complete_task_ids.
  unfold high, max_rowid. by rewrite Hids, Hseq.
Qed.

Lemma exec_high o d : high d ≤ high (exec o d).
Proof.
  destruct o as [now title u c desc|now tid u]; simpl.
  - destruct (create_task _ _ _ _ _ d) as [[i d']|] eqn:E; [|done].
    apply create_task_high in E. lia.
  - destruct (complete_task _ _ _ d) as [[b d']|] eqn:E; [|done].
    apply complete_task_high in E. lia.
Qed.

Lemma exec_all_high ops d : high d ≤ high (exec_all ops d).
Proof.
  revert d. induction ops as [|o ops IH]; intros d; simpl; [done|].
  etrans; [apply (exec_high o)|apply IH].
Qed.

Lemma wf_init : wf (init_db None).
Proof. split; simpl; constructor. Qed.

Lemma wf_create now title user_id channel_id description d i d' :
  wf d →
  create_task now title user_id channel_id description d = Ret (i, d') →
  wf d'.
Proof.
  intros [Hnd Hpos Hst] (t & _ & -> & _ & ->)%create_task_Ret.
  split; simpl.
  - rewrite fmap_app. csimpl. apply NoDup_app. split_and!; [done| |].
    + intros x (r & -> & Hr%high_ge)%list_elem_of_fmap.
      rewrite list_elem_of_singleton. lia.
    + apply NoDup_singleton.
  - apply Forall_app. split; [done|]. constructor; [|done].
    simpl. pose proof (high_nonneg d). lia.
  - apply Forall_app. split; [done|]. constructor; [|done]. by left.
Qed.

Lemma wf_complete now (task_id : Z) user_id d done d' :
  wf d → complete_task now task_id user_id d = Ret (done, d') → wf d'.
Proof.
  intros [Hnd Hpos Hst] Hrun.
  destruct (complete_task_ids _ _ _ _ _ _ Hrun) as [Hids _].
  unfold complete_task in Hrun.
  destruct (bind_int task_id); [|done]. simpl in Hrun.
  injection Hrun as _ <-. simpl in Hids.
  split; simpl.
  - by rewrite Hids.
  - apply Forall_fmap. eapply Forall_impl; [exact Hpos|].
    intros r Hr. simpl. by destruct (complete_where _ _ r).
  - apply Forall_fmap. eapply Forall_impl; [exact Hst|].
    intros r Hr. simpl. destruct (complete_where _ _ r); [by right|done].
Qed.

Lemma wf_exec o d : wf d → wf (exec o d).
Proof.
  intros Hwf. destruct o as [now title u c desc|now tid u]; simpl.
  - destruct (create_task _ _ _ _ _ d) as [[i d']|] eqn:E; [|done].
    by eapply wf_create.
  - destruct (complete_task _ _ _ d) as [[b d']|] eqn:E; [|done].
    by eapply wf_complete.
Qed.

Lemma reachable_wf d : reachable d → wf d.
Proof. induction 1; [apply wf_init|by apply wf_exec]. Qed.

Lemma reachable_exec_all ops d : reachable d → reachable (exec_all ops d).
Proof.
  revert d. induction ops as [|o ops IH]; intros d Hd; simpl; [done|].
  apply IH. by constructor.
Qed.

Lemma created_ids_above ops d :
  StronglySorted Z.lt (created_ids ops d)
  ∧ Forall (λ i, high d < i) (created_ids ops d).
Proof.
  revert d. induction ops as [|o ops IH]; intros d; simpl.
  { split; constructor. }
  destruct (IH (exec o d)) as [Hsorted Habove].
  assert (Hrest : Forall (λ i, high d < i) (created_ids ops (exec o d))).
  { eapply Forall_impl; [exact Habove|]. intros i Hi. simpl in Hi.
    pose proof (exec_high o d). lia. }
  destruct o as [now title u c desc|now tid u]; simpl in *; [|done].
  destruct (create_task _ _ _ _ _ d) as [[i d']|] eqn:E; simpl; [|done].
  apply create_task_high in E as [<- E]. split.
  - by constructor.
  - constructor; [lia|done].
Qed.
End create.

(** C5. In every run of operations on one store, the ids returned by
    the creates that succeed are strictly increasing positive integers;
    each is larger than every id the table held when the run started, so
    no later create hands out an id that was assigned before, and the
    ids in the table stay pairwise distinct. *)
Theorem create_ids_strictly_increasing (ops : list op) (d : db) :
  reachable d →
  StronglySorted Z.lt (created_ids ops d)
  ∧ Forall (λ i, 0 < i) (created_ids ops d)
  ∧ (∀ i r, i ∈ created_ids ops d → r ∈ tasks_table d → col_id r < i)
  ∧ NoDup (col_id <$> tasks_table (exec_all ops d)).
Proof.
  intros Hd. destruct (created_ids_above ops d) as [Hsorted Habove].
  split_and!.
  - done.
  - eapply Forall_impl; [exact Habove|]. intros i Hi. simpl in Hi.
    pose proof (high_nonneg d). lia.
  - intros i r Hi Hr%high_ge.
    rewrite Forall_forall in Habove. specialize (Habove i Hi). lia.
  - by apply reachable_wf, reachable_exec_all.
Qed.

Lemma create_ids_strictly_increasing_witness :
  reachable (init_db None)
  ∧ created_ids [OpCreate 100 (Some "a") (Some "U1") None (Some "");
                 OpComplete 101 1 (Some "U1");
                 OpCreate 102 (Some "b") (Some "U2") None (Some "")]
                (init_db None) = [1; 2]
  ∧ StronglySorted Z.lt [1; 2].
Proof.
  split; [constructor|]. split; [reflexivity|].
  exact (proj1 (create_ids_strictly_increasing
    [OpCreate 100 (Some "a") (Some "U1") None (Some "");
     OpComplete 101 1 (Some "U1");
     OpCreate 102 (Some "b") (Some "U2") None (Some "")]
    (init_db None) reachable_init)).
Defined.

(** ** Store: the life of a task *)

Section lifecycle.
Implicit Types (d : db) (r : task).

Lemma status_step_trans (a b c : string) :
  status_step a b → status_step b c → status_step a c.
Proof.
  intros [->|[-> ->]] [->|[Hb ->]]; try (by left); by right.
Qed.

Lemma preserves_refl d : preserves d d.
Proof. intros k r Hk. exists r. split_and!; [done|done|done|by left]. Qed.

Lemma preserves_trans d1 d2 d3 :
  preserves d1 d2 → preserves d2 d3 → preserves d1 d3.
Proof.
  intros H12 H23 k r Hk.
  destruct (H12 k r Hk) as (r2 & Hk2 & Hid2 & Hu2 & Hst2).
  destruct (H23 k r2 Hk2) as (r3 & Hk3 & Hid3 & Hu3 & Hst3).
  exists r3.
  split_and!; [done|congruence|congruence|by eapply status_step_trans].
Qed.

Lemma preserves_create now title user_id channel_id description d i d' :
  create_task now title user_id channel_id description d = Ret (i, d') →
  preserves d d'.
Proof.
  intros (t & _ & _ & _ & ->)%create_task_Ret k r Hk. exists r. simpl.
  split_and!; [by apply lookup_app_l_Some|done|done|by left].
Qed.

Lemma preserves_complete now (task_id : Z) user_id d done d' :
  Forall valid_status (tasks_table d) →
  complete_task now task_id user_id d = Ret (done, d') →
  preserves d d'.
Proof.
  intros Hst Hrun k r Hk. unfold complete_task in Hrun.
  destruct (bind_int task_id); [|done]. simpl in Hrun.
  injection Hrun as _ <-. simpl. rewrite list_lookup_fmap, Hk. simpl.
  eexists. split; [done|].
  destruct (complete_where _ _ r); [|by split_and!; [| |left]].
  split_and!; [done|done|]. simpl.
  rewrite Forall_lookup in Hst. destruct (Hst k r Hk) as [->| ->].
  - by right.
  - by left.
Qed.

Lemma preserves_exec o d : wf d → preserves d (exec o d).
Proof.
  intros Hwf. destruct o as [now title u c desc|now tid u]; simpl.
  - destruct (create_task _ _ _ _ _ d) as [[i d']|] eqn:E.
    + by eapply preserves_create.
    + apply preserves_refl.
  - destruct (complete_task _ _ _ d) as [[b d']|] eqn:E.
    + eapply preserves_complete; [apply Hwf|done].
    + apply preserves_refl.
Qed.

Lemma preserves_exec_all ops d : wf d → preserves d (exec_all ops d).
Proof.
  revert d. induction ops as [|o ops IH]; intros d Hwf; simpl.
  - apply preserves_refl.
  - eapply preserves_trans; [by apply (preserves_exec o)|].
    by apply IH, wf_exec.
Qed.

Lemma create_task_pending now title user_id channel_id description d i d' :
  create_task now title user_id channel_id description d = Ret (i, d') →
  ∃ r, r ∈ tasks_table d' ∧ col_id r = i ∧ col_status r = "pending"
       ∧ col_user_id r = user_id
       ∧ col_created_at r = now ∧ col_updated_at r = now.
Proof.
  intros (t & _ & _ & _ & ->)%create_task_Ret. eexists. simpl.
  split; [apply elem_of_app; right; left|done].
Qed.
End lifecycle.

(** ** The command router *)

Section router.
Implicit Types (s action rest text : string) (d : db).

Lemma cut_at_space_word action :
  has_space action = false → cut_at_space action = (action, None).
Proof.
  induction action as [|c a IH]; [done|]. simpl.
  intros [Hc Ha]%orb_false_elim. rewrite Hc. by rewrite IH.
Qed.

Lemma cut_at_space_app action rest :
  has_space action = false →
  cut_at_space (action +:+ " " +:+ rest) = (action, Some rest).
Proof.
  induction action as [|c a IH]; [done|]. simpl.
  intros [Hc Ha]%orb_false_elim. rewrite Hc. by rewrite IH.
Qed.

Lemma split_space_1_word action :
  has_space action = false → split_space_1 action = [action].
Proof. intros H. unfold split_space_1. by rewrite cut_at_space_word. Qed.

Lemma split_space_1_app action rest :
  has_space action = false →
  split_space_1 (action +:+ " " +:+ rest) = [action; rest].
Proof. intros H. unfold split_space_1. by rewrite cut_at_space_app. Qed.

Lemma append_space_nonempty action rest : action +:+ " " +:+ rest ≠ "".
Proof. by destruct action. Qed.

Lemma route_word action :
  has_space action = false →
  route action =
    if bool_decide (lower action = "list") then List else Usage USAGE.
Proof.
  intros H. unfold route. case_bool_decide as Hempty.
  { by subst. }
  rewrite split_space_1_word by done. simpl.
  by rewrite !andb_false_r.
Qed.

Lemma route_app action rest :
  has_space action = false →
  route (action +:+ " " +:+ rest) =
    if bool_decide (lower action = "create") then Create rest
    else if bool_decide (lower action = "list") then List
    else if bool_decide (lower action = "complete") then
      match int_literal rest with
      | Some task_id => Complete task_id
      | None => ParseError INVALID_ID
      end
    else Usage USAGE.
Proof.
  intros H. unfold route.
  rewrite bool_decide_eq_false_2 by apply append_space_nonempty.
  rewrite split_space_1_app by done. simpl.
  by rewrite !andb_true_r.
Qed.

(** The [/task] branch of [slack_commands] is the router followed by
    the dispatch of its result. *)
Lemma task_command_route now text user_id channel_id d :
  text ≠ "" →
  task_command now text user_id channel_id d
  = dispatch now (route text) user_id channel_id d.
Proof.
  intros Htext. unfold task_command, route.
  rewrite (bool_decide_eq_false_2 (text = "")) by done.
  unfold split_space_1.
  destruct (cut_at_space text) as [a [rest|]]; simpl.
  - rewrite !andb_true_r.
    repeat case_bool_decide; simpl; try done.
    unfold py_int. destruct (int_literal rest) as [n|]; simpl; [|done].
    destruct (decide (INT64_MIN ≤ n ≤ INT64_MAX)) as [Hfit|Hbig].
    + rewrite complete_task_fits by done. simpl.
      by destruct (bool_decide _).
    + by rewrite complete_task_overflow.
  - rewrite !andb_false_r. by repeat case_bool_decide.
Qed.

Lemma slack_commands_task env now text user_id channel_id d :
  slack_commands env now
    (CommandForm (Some "/task") (Some text) user_id channel_id) d
  = (try_except (dispatch now (route text) user_id channel_id d)
       (λ _, (SlackReply "An error occurred processing your command."
                         "ephemeral" 500, d)),
     []).
Proof.
  unfold slack_commands, slack_commands_try. simpl.
  case_bool_decide as Htext.
  - subst. done.
  - by rewrite task_command_route.
Qed.
End router.

(** ** What the handlers do to the store *)

Section handlers_store.
Implicit Types (d : db).

Lemma exec_all_one o d : exec_all [o] d = exec o d.
Proof. done. Qed.

Lemma exec_create now title user_id channel_id description d i d' :
  create_task now title user_id channel_id description d = Ret (i, d') →
  d' = exec_all [OpCreate now title user_id channel_id description] d.
Proof. intros E. rewrite exec_all_one. unfold exec. by rewrite E. Qed.

Lemma exec_complete now (task_id : Z) user_id d done d' :
  complete_task now task_id user_id d = Ret (done, d') →
  d' = exec_all [OpComplete now task_id user_id] d.
Proof. intros E. rewrite exec_all_one. unfold exec. by rewrite E. Qed.

Lemma dispatch_store now c user_id channel_id d :
  match dispatch now c user_id channel_id d with
  | Ret (_, d') => ∃ ops, d' = exec_all ops d
  | Raise _ => True
  end.
Proof.
  destruct c as [title| |task_id|message|message]; unfold dispatch.
  - destruct (create_task now (Some title) user_id channel_id (Some "") d)
      as [[i d']|] eqn:E; [|done].
    eexists. by eapply exec_create.
  - by exists [].
  - destruct (complete_task now task_id user_id d) as [[b d']|] eqn:E;
      [|done].
    assert (∃ ops, d' = exec_all ops d) as Hops.
    { eexists. by eapply exec_complete. }
    by destruct b.
  - by exists [].
  - by exists [].
Qed.

(** Whatever [slack_commands] is sent, the store afterwards is the
    store before, changed by at most one store operation. *)
Lemma slack_commands_store env now form d :
  ∃ ops, (slack_commands env now form d).1.2 = exec_all ops d.
Proof.
  destruct form as [command text user_id channel_id].
  unfold slack_commands, slack_commands_try. simpl.
  repeat case_bool_decide; simpl; try (by exists []).
  - by destruct (chat_with_openai _ _ _); exists [].
  - rewrite task_command_route by done.
    pose proof (dispatch_store now (route (default "" text))
                               user_id channel_id d) as Hstore.
    destruct (dispatch _ _ _ _ _) as [[reply d']|]; [done|by exists []].
Qed.

Lemma tasks_store now req d :
  ∃ ops, (tasks now req d).2 = exec_all ops d.
Proof.
  unfold tasks, tasks_try.
  destruct req as [user_id|[data|]]; simpl; try (by exists []).
  case_bool_decide; simpl; [by exists []|].
  destruct (create_task now (get (post_title data))
              (get_default (post_user_id data) DEFAULT_USER)
              (get (post_channel_id data))
              (get_default (post_description data) "") d)
    as [[i d']|] eqn:E; simpl; [|by exists []].
  eexists. by eapply exec_create.
Qed.
End handlers_store.

(** C6. In every store the program can reach, each task's status is
    pending or completed.  A created task starts pending.  Over any run
    of operations every task stays in the table under its id, and its
    status either stays or has moved from pending to completed; a
    completed task stays completed.  The slash-command and [/tasks]
    handlers change the store only through these operations. *)
Theorem status_only_moves_forward (d : db) :
  reachable d →
  Forall (λ r, col_status r = "pending" ∨ col_status r = "completed")
         (tasks_table d)
  ∧ (∀ now title user_id channel_id description i d',
       create_task now title user_id channel_id description d = Ret (i, d') →
       ∃ r, r ∈ tasks_table d' ∧ col_id r = i ∧ col_status r = "pending")
  ∧ (∀ ops k r, tasks_table d !! k = Some r →
       ∃ r', tasks_table (exec_all ops d) !! k = Some r'
             ∧ col_id r' = col_id r
             ∧ (col_status r' = col_status r
                ∨ (col_status r = "pending"
                   ∧ col_status r' = "completed")))
  ∧ (∀ ops k r, tasks_table d !! k = Some r →
       col_status r = "completed" →
       ∃ r', tasks_table (exec_all ops d) !! k = Some r'
             ∧ col_id r' = col_id r ∧ col_status r' = "completed")
  ∧ (∀ env now form,
       ∃ ops, (slack_commands env now form d).1.2 = exec_all ops d)
  ∧ (∀ now req, ∃ ops, (tasks now req d).2 = exec_all ops d).
Proof.
  intros Hwf%reachable_wf. split_and!.
  - apply Hwf.
  - intros now title u c desc i d' Hrun.
    destruct (create_task_pending _ _ _ _ _ _ _ _ Hrun) as (r & ? & ? & ? & _).
    by exists r.
  - intros ops k r Hk.
    destruct (preserves_exec_all ops d Hwf k r Hk)
      as (r' & Hk' & Hid & _ & Hst).
    by exists r'.
  - intros ops k r Hk Hdone.
    destruct (preserves_exec_all ops d Hwf k r Hk)
      as (r' & Hk' & Hid & _ & [Hst|[Hst _]]).
    + exists r'. split_and!; [done|done|congruence].
    + rewrite Hdone in Hst. discriminate Hst.
  - intros. apply slack_commands_store.
  - intros. apply tasks_store.
Qed.

Lemma status_only_moves_forward_witness :
  reachable sample_db
  ∧ Forall (λ r, col_status r = "pending" ∨ col_status r = "completed")
           (tasks_table sample_db).
Proof.
  assert (Hreach : reachable sample_db).
  { exact (reachable_exec
             (OpCreate 100 (Some "ship the deck") (Some "U1") (Some "C1")
                       (Some ""))
             (init_db None) reachable_init). }
  split; [exact Hreach|].
  exact (proj1 (status_only_moves_forward sample_db Hreach)).
Defined.

(** C2 (as the code has it).  [create_task] takes any text as title,
    the empty one included: while an unused id is left it inserts one
    pending row with that title for the given owner and returns the new
    id.  Only a missing title ([None]) is rejected, by the [NOT NULL]
    constraint, and then nothing is inserted. *)
Theorem create_task_accepts_any_title (now : Z) (title : string)
    (owner channel_id description : option string) (d : db) :
  high d < INT64_MAX →
  create_task now (Some title) owner channel_id description d
    = Ret (high d + 1,
           Db (tasks_table d
                 ++ [Task (high d + 1) title description "pending" now now
                          owner channel_id])
              (high d + 1))
  ∧ create_task now None owner channel_id description d
    = Raise IntegrityError
  ∧ exec (OpCreate now None owner channel_id description) d = d.
Proof.
  intros Hroom. split_and!; [|done|done].
  apply create_task_Ret. by exists title.
Qed.

Lemma create_task_accepts_any_title_witness :
  high (init_db None) < INT64_MAX
  ∧ create_task 100 (Some " x ") (Some "U1") None (Some "") (init_db None)
    = Ret (1, Db [Task 1 " x " (Some "") "pending" 100 100 (Some "U1") None]
                 1).
Proof.
  assert (Hroom : high (init_db None) < INT64_MAX) by (vm_compute; done).
  split; [exact Hroom|].
  exact (proj1 (create_task_accepts_any_title 100 " x " (Some "U1") None
                  (Some "") (init_db None) Hroom)).
Defined.

(** C2, the claim as stated fails: an empty title is accepted by
    [create_task], by the [/tasks] endpoint and by the slash command. *)
Lemma create_task_empty_title_accepted :
  create_task 100 (Some "") (Some "U1") None (Some "") (init_db None)
    = Ret (1, Db [Task 1 "" (Some "") "pending" 100 100 (Some "U1") None] 1)
  ∧ tasks 100 (POST (Some (TaskPost (Str "") Absent (Str "U1") Absent)))
          (init_db None)
    = (TaskCreated 1 "Task created successfully",
       Db [Task 1 "" (Some "") "pending" 100 100 (Some "U1") None] 1)
  ∧ route "create " = Create "".
Proof. split_and!; reflexivity. Qed.

Section router_cases.
Implicit Types (action rest text : string) (d : db).

(** Every text is a space-free first part, alone or followed by one
    space and a rest. *)
Lemma text_first_space text :
  ∃ action, has_space action = false
    ∧ (text = action ∨ ∃ rest, text = action +:+ " " +:+ rest).
Proof.
  induction text as [|c s (a & Ha & IH)].
  { exists "". split; [done|by left]. }
  destruct (decide (c = " "%char)) as [->|Hc].
  - exists "". split; [done|]. right. by exists s.
  - exists (String c a). split.
    + simpl. by rewrite bool_decide_eq_false_2.
    + destruct IH as [->|[rest ->]]; [by left|right; by exists rest].
Qed.

Lemma complete_task_no_match now (task_id : Z) user_id d :
  INT64_MIN ≤ task_id ≤ INT64_MAX →
  (∀ r, r ∈ tasks_table d → col_id r ≠ task_id) →
  complete_task now task_id user_id d = Ret (false, d).
Proof.
  intros Hfit Hno. rewrite complete_task_fits by done.
  assert (Hmiss : ∀ r, r ∈ tasks_table d →
                       complete_where task_id user_id r = false).
  { intros r Hr%Hno. unfold complete_where.
    by rewrite bool_decide_eq_false_2. }
  rewrite update_no_hit by done.
  rewrite bool_decide_eq_false_2; [by destruct d|].
  rewrite rowcount_pos. intros (r & Hin & Hr).
  by rewrite Hmiss in Hr.
Qed.
End router_cases.

(** C3 (as the code has it).  The router cuts its input at the first
    single space: the action is the text before it and the rest is
    everything after that one space.  Actions match without regard to
    case.  An empty input and any action other than create, list or
    complete yield the usage text; [create] with a rest yields
    [Create rest]; [list] yields [List] with or without a rest. *)
Theorem route_cuts_at_first_space (action rest : string) :
  has_space action = false →
  split_space_1 action = [action]
  ∧ split_space_1 (action +:+ " " +:+ rest) = [action; rest]
  ∧ (lower action = "create" →
     route (action +:+ " " +:+ rest) = Create rest)
  ∧ (lower action = "list" →
     route action = List ∧ route (action +:+ " " +:+ rest) = List)
  ∧ (lower action ≠ "create" → lower action ≠ "list" →
     lower action ≠ "complete" →
     route action = Usage USAGE
     ∧ route (action +:+ " " +:+ rest) = Usage USAGE)
  ∧ route "" = Usage USAGE
  ∧ USAGE = "Usage: /task [create|list|complete] <description>"
  ∧ route "create buy cups" = Create "buy cups"
  ∧ route "complete 7" = Complete 7
  ∧ route "list" = List
  ∧ route "bogus" = Usage USAGE.
Proof.
  intros Hword. split_and!; try reflexivity.
  - by apply split_space_1_word.
  - by apply split_space_1_app.
  - intros Hcreate. rewrite route_app by done.
    by rewrite bool_decide_eq_true_2.
  - intros Hlist. rewrite route_word, route_app by done.
    rewrite (bool_decide_eq_true_2 _ Hlist). split; [done|].
    case_bool_decide; [congruence|done].
  - intros H1 H2 H3. rewrite route_word, route_app by done.
    by rewrite !bool_decide_eq_false_2.
Qed.

Lemma route_cuts_at_first_space_witness :
  has_space "LIST" = false
  ∧ route ("LIST" +:+ " " +:+ "everything") = List.
Proof.
  assert (Hword : has_space "LIST" = false) by reflexivity.
  split; [exact Hword|].
  destruct (route_cuts_at_first_space "LIST" "everything" Hword)
    as (_ & _ & _ & Hlist & _).
  apply Hlist. reflexivity.
Defined.

(** C3, the claim as stated fails: the cut is at one space, not at a
    run of whitespace.  A second space stays in the title, and a tab
    does not end the action. *)
Lemma route_not_whitespace_run :
  route "create  buy cups" = Create " buy cups"
  ∧ spec_route "create  buy cups" = Create "buy cups"
  ∧ route "create  buy cups" ≠ spec_route "create  buy cups"
  ∧ route ("list" +:+ tab +:+ "mine") = Usage USAGE
  ∧ spec_route ("list" +:+ tab +:+ "mine") = List.
Proof. split_and!; try reflexivity. discriminate. Qed.

Section router_with.
Variable int_ : string → option Z.
Implicit Types (action rest text : string) (d : db).

(** With the model of [int] for ASCII text, the handlers with [int] as
    an argument are the handlers above. *)
Lemma route_with_int_literal text : route_with int_literal text = route text.
Proof. done. Qed.

Lemma slack_commands_with_int_literal env now form d :
  slack_commands_with int_literal env now form d
  = slack_commands env now form d.
Proof. done. Qed.

Lemma route_with_word action :
  has_space action = false →
  route_with int_ action =
    if bool_decide (lower action = "list") then List else Usage USAGE.
Proof.
  intros H. unfold route_with. case_bool_decide as Hempty.
  { by subst. }
  rewrite split_space_1_word by done. simpl.
  by rewrite !andb_false_r.
Qed.

Lemma route_with_app action rest :
  has_space action = false →
  route_with int_ (action +:+ " " +:+ rest) =
    if bool_decide (lower action = "create") then Create rest
    else if bool_decide (lower action = "list") then List
    else if bool_decide (lower action = "complete") then
      match int_ rest with
      | Some task_id => Complete task_id
      | None => ParseError INVALID_ID
      end
    else Usage USAGE.
Proof.
  intros H. unfold route_with.
  rewrite bool_decide_eq_false_2 by apply append_space_nonempty.
  rewrite split_space_1_app by done. simpl.
  by rewrite !andb_true_r.
Qed.

Lemma task_command_with_route now text user_id channel_id d :
  text ≠ "" →
  task_command_with int_ now text user_id channel_id d
  = dispatch now (route_with int_ text) user_id channel_id d.
Proof.
  intros Htext. unfold task_command_with, route_with.
  rewrite (bool_decide_eq_false_2 (text = "")) by done.
  unfold split_space_1.
  destruct (cut_at_space text) as [a [rest|]]; simpl.
  - rewrite !andb_true_r.
    repeat case_bool_decide; simpl; try done.
    unfold py_int_with. destruct (int_ rest) as [n|]; simpl; [|done].
    destruct (decide (INT64_MIN ≤ n ≤ INT64_MAX)) as [Hfit|Hbig].
    + rewrite complete_task_fits by done. simpl.
      by destruct (bool_decide _).
    + by rewrite complete_task_overflow.
  - rewrite !andb_false_r. by repeat case_bool_decide.
Qed.

Lemma slack_commands_with_task env now text user_id channel_id d :
  slack_commands_with int_ env now
    (CommandForm (Some "/task") (Some text) user_id channel_id) d
  = (try_except (dispatch now (route_with int_ text) user_id channel_id d)
       (λ _, (SlackReply "An error occurred processing your command."
                         "ephemeral" 500, d)),
     []).
Proof.
  unfold slack_commands_with, slack_commands_try_with. simpl.
  case_bool_decide as Htext.
  - subst. done.
  - by rewrite task_command_with_route.
Qed.
End router_with.

(** C4 (as the code has it).  Whatever texts [int] accepts: after the
    action [complete] and a space, a rest that [int] rejects yields the
    reply asking for a valid task id, and the store is unchanged.  A
    rest that [int] reads as zero or as a negative number is an
    accepted id: within the 64-bit range no task has it, so the reply
    is "not found or not yours", below that range the binding fails and
    the reply is the generic error with status 500; the store is
    unchanged in both cases.  Without a rest the reply is the usage
    text. *)
Theorem complete_rejects_non_literal (int_ : string → option Z)
    (env : openai_env) (now : Z) (action rest : string)
    (user_id channel_id : option string) (d : db) :
  has_space action = false →
  lower action = "complete" →
  (int_ rest = None →
   route_with int_ (action +:+ " " +:+ rest) = ParseError INVALID_ID
   ∧ slack_commands_with int_ env now
       (CommandForm (Some "/task") (Some (action +:+ " " +:+ rest))
                    user_id channel_id) d
     = (SlackReply "Please provide a valid task ID number." "ephemeral" 200,
        d, []))
  ∧ (∀ n, int_ rest = Some n → INT64_MIN ≤ n ≤ 0 → reachable d →
     route_with int_ (action +:+ " " +:+ rest) = Complete n
     ∧ slack_commands_with int_ env now
         (CommandForm (Some "/task") (Some (action +:+ " " +:+ rest))
                      user_id channel_id) d
       = (SlackReply ("Task #" +:+ pretty n +:+ " not found or not yours.")
                     "ephemeral" 200,
          d, []))
  ∧ (∀ n, int_ rest = Some n → n < INT64_MIN →
     route_with int_ (action +:+ " " +:+ rest) = Complete n
     ∧ slack_commands_with int_ env now
         (CommandForm (Some "/task") (Some (action +:+ " " +:+ rest))
                      user_id channel_id) d
       = (SlackReply "An error occurred processing your command."
                     "ephemeral" 500,
          d, []))
  ∧ route_with int_ action = Usage USAGE
  ∧ slack_commands_with int_ env now
      (CommandForm (Some "/task") (Some action) user_id channel_id) d
    = (SlackReply USAGE "ephemeral" 200, d, []).
Proof.
  intros Hword Hcomplete.
  assert (Hroute : ∀ rest', route_with int_ (action +:+ " " +:+ rest') =
            match int_ rest' with
            | Some task_id => Complete task_id
            | None => ParseError INVALID_ID
            end).
  { intros rest'. rewrite route_with_app by done. rewrite Hcomplete. done. }
  assert (Halone : route_with int_ action = Usage USAGE).
  { rewrite route_with_word by done. by rewrite Hcomplete. }
  split_and!.
  - intros Hbad. rewrite slack_commands_with_task, Hroute, Hbad. done.
  - intros n Hn Hrange Hd%reachable_wf.
    rewrite slack_commands_with_task, Hroute, Hn. split; [done|]. simpl.
    rewrite complete_task_no_match; [done|unfold INT64_MAX; lia|].
    intros r Hr. destruct Hd as [_ Hpos _].
    rewrite Forall_forall in Hpos. specialize (Hpos r Hr). simpl in Hpos.
    lia.
  - intros n Hn Hlow.
    rewrite slack_commands_with_task, Hroute, Hn. split; [done|]. simpl.
    rewrite complete_task_overflow by lia. done.
  - done.
  - by rewrite slack_commands_with_task, Halone.
Qed.

Lemma complete_rejects_non_literal_witness :
  has_space "complete" = false
  ∧ lower "complete" = "complete"
  ∧ int_literal "abc" = None
  ∧ slack_commands_with int_literal no_openai 100
      (CommandForm (Some "/task") (Some ("complete" +:+ " " +:+ "abc"))
                   (Some "U1") (Some "C1")) sample_db
    = (SlackReply "Please provide a valid task ID number." "ephemeral" 200,
       sample_db, []).
Proof.
  assert (Hword : has_space "complete" = false) by reflexivity.
  assert (Hact : lower "complete" = "complete") by reflexivity.
  assert (Hbad : int_literal "abc" = None) by reflexivity.
  split_and!; [exact Hword|exact Hact|exact Hbad|].
  destruct (complete_rejects_non_literal int_literal no_openai 100 "complete"
              "abc" (Some "U1") (Some "C1") sample_db Hword Hact)
    as (Hparse & _).
  exact (proj2 (Hparse Hbad)).
Defined.

(** C4, the claim as stated fails: a negative number and zero are
    parsed and sent to the store, and a missing rest gives the usage
    text; none of them gives the invalid-id reply. *)
Lemma complete_nonpositive_is_not_parse_error :
  route "complete -5" = Complete (-5)
  ∧ route "complete 0" = Complete 0
  ∧ route "complete" = Usage USAGE
  ∧ slack_commands no_openai 200
      (CommandForm (Some "/task") (Some "complete -5") (Some "U1")
                   (Some "C1")) sample_db
    = (SlackReply "Task #-5 not found or not yours." "ephemeral" 200,
       sample_db, [])
  ∧ spec_route "complete -5" = ParseError INVALID_ID
  ∧ spec_route "complete" = ParseError INVALID_ID.
Proof. split_and!; reflexivity. Qed.

(** ** The assistant gateway *)

Section gateway.
Implicit Types (env : openai_env) (message user_id : option string).

Lemma chat_with_openai_unconfigured env message user_id :
  truthy (api_key env) = false →
  chat_with_openai env message user_id = Ret NOT_CONFIGURED.
Proof. intros H. unfold chat_with_openai. by rewrite H. Qed.

Lemma chat_with_openai_raises env message user_id e :
  truthy (api_key env) = true →
  ChatCompletion_create env message = Raise e →
  chat_with_openai env message user_id =
    Ret match e with
        | AuthenticationError => AUTH_FAILED
        | RateLimitError => RATE_LIMITED
        | _ => GATEWAY_ERROR
        end.
Proof.
  intros Hkey Hcall. unfold chat_with_openai. rewrite Hkey, Hcall.
  by destruct e.
Qed.

Lemma chat_with_openai_returns env message user_id :
  ∃ reply, chat_with_openai env message user_id = Ret reply.
Proof.
  unfold chat_with_openai. destruct (truthy (api_key env)); simpl; [|eauto].
  destruct (ChatCompletion_create env message) as [[|[content|] rest]|e];
    simpl; eauto.
  destruct e; simpl; eauto.
Qed.
End gateway.

(** C8. For every message, [chat_with_openai] returns a text and never
    raises.  Without an API key it returns the fixed text that says the
    key is not configured; when the completion call raises an
    authentication error, a rate-limit error or any other exception,
    or when the answer has no usable choice, it returns a short fixed
    text for that case. *)
Theorem chat_with_openai_never_raises (env : openai_env)
    (message user_id : option string) :
  (∃ reply, chat_with_openai env message user_id = Ret reply)
  ∧ (truthy (api_key env) = false →
     chat_with_openai env message user_id =
       Ret "OpenAI API key not configured. Please set OPENAI_API_KEY environment variable.")
  ∧ (truthy (api_key env) = true →
     (ChatCompletion_create env message = Raise AuthenticationError →
      chat_with_openai env message user_id =
        Ret "Authentication failed. Please check your OpenAI API key.")
     ∧ (ChatCompletion_create env message = Raise RateLimitError →
        chat_with_openai env message user_id =
          Ret "Rate limit exceeded. Please try again later.")
     ∧ (∀ e, ChatCompletion_create env message = Raise e →
        e ≠ AuthenticationError → e ≠ RateLimitError →
        chat_with_openai env message user_id =
          Ret "Sorry, I encountered an error processing your request.")
     ∧ (ChatCompletion_create env message = Ret [] →
        chat_with_openai env message user_id =
          Ret "Sorry, I encountered an error processing your request.")
     ∧ (∀ rest,
        ChatCompletion_create env message = Ret (None :: rest) →
        chat_with_openai env message user_id =
          Ret "Sorry, I encountered an error processing your request.")).
Proof.
  split_and!.
  - apply chat_with_openai_returns.
  - apply chat_with_openai_unconfigured.
  - intros Hkey. split_and!.
    + intros Hcall.
      by rewrite (chat_with_openai_raises _ _ _ _ Hkey Hcall).
    + intros Hcall.
      by rewrite (chat_with_openai_raises _ _ _ _ Hkey Hcall).
    + intros e Hcall Hauth Hrate.
      rewrite (chat_with_openai_raises _ _ _ _ Hkey Hcall).
      by destruct e.
    + intros Hcall. unfold chat_with_openai. by rewrite Hkey, Hcall.
    + intros rest Hcall. unfold chat_with_openai.
      by rewrite Hkey, Hcall.
Qed.

Lemma chat_with_openai_never_raises_witness :
  truthy (api_key rate_limited_openai) = true
  ∧ ChatCompletion_create rate_limited_openai (Some "hello")
    = Raise RateLimitError
  ∧ chat_with_openai rate_limited_openai (Some "hello") (Some "U1")
    = Ret "Rate limit exceeded. Please try again later.".
Proof.
  assert (Hkey : truthy (api_key rate_limited_openai) = true)
    by reflexivity.
  assert (Hcall : ChatCompletion_create rate_limited_openai (Some "hello")
                  = Raise RateLimitError) by reflexivity.
  split_and!; [exact Hkey|exact Hcall|].
  destruct (chat_with_openai_never_raises rate_limited_openai (Some "hello")
              (Some "U1")) as (_ & _ & Hconfigured).
  destruct (Hconfigured Hkey) as (_ & Hrate & _).
  exact (Hrate Hcall).
Defined.

(** ** Message events *)

Section events.
Implicit Types (s text needle : string).

Lemma lower_app s1 s2 : lower (s1 +:+ s2) = lower s1 +:+ lower s2.
Proof. induction s1 as [|c s1 IH]; [done|]. simpl. by rewrite IH. Qed.

(** A cut of the lowered text is the lowering of a cut of the text. *)
Lemma lower_app_inv s a b :
  lower s = a +:+ b → ∃ s1 s2, s = s1 +:+ s2 ∧ lower s1 = a ∧ lower s2 = b.
Proof.
  revert s. induction a as [|c a IH]; intros s Hs.
  - by exists "", s.
  - destruct s as [|c' s]; [done|]. simpl in Hs.
    injection Hs as Hc Hs.
    destruct (IH s Hs) as (s1 & s2 & -> & <- & <-).
    exists (String c' s1), s2. simpl. by rewrite Hc.
Qed.

Lemma starts_with_spec p s :
  starts_with p s = true ↔ ∃ post, s = p +:+ post.
Proof.
  revert s. induction p as [|a p IH]; intros s; simpl.
  { split; [by exists s|done]. }
  destruct s as [|b s].
  { split; [done|]. by intros [post ?]. }
  rewrite andb_true_iff, bool_decide_eq_true, IH. split.
  - intros [-> [post ->]]. by exists post.
  - intros [post [= -> ->]]. split; [done|by exists post].
Qed.

(** [needle in s] holds exactly when [s] is some text, the needle,
    and some more text. *)
Lemma contains_spec needle s :
  contains needle s = true ↔ ∃ pre post, s = pre +:+ needle +:+ post.
Proof.
  induction s as [|c s IH].
  - simpl. rewrite orb_false_r, starts_with_spec. split.
    + intros [post ->]. by exists "", post.
    + intros (pre & post & Hs). destruct pre; [by exists post|done].
  - cbn [contains]. rewrite orb_true_iff, starts_with_spec, IH. split.
    + intros [[post ->]|(pre & post & ->)].
      * by exists "", post.
      * by exists (String c pre), post.
    + intros (pre & post & Hs). destruct pre as [|c' pre].
      * left. by exists post.
      * right. injection Hs as -> ->. by exists pre, post.
Qed.

(** The test [TRIGGER in text.lower()] of the source finds the
    trigger phrase in [text] without regard to case. *)
Lemma trigger_case_insensitive text :
  contains TRIGGER (lower text) = true
  ↔ ∃ pre mid post, text = pre +:+ mid +:+ post ∧ lower mid = TRIGGER.
Proof.
  rewrite contains_spec. split.
  - intros (pre' & post' & H).
    destruct (lower_app_inv _ _ _ H) as (pre & tl & -> & _ & Htl).
    destruct (lower_app_inv _ _ _ Htl) as (mid & post & -> & Hmid & _).
    by exists pre, mid, post.
  - intros (pre & mid & post & -> & Hmid).
    exists (lower pre), (lower post). by rewrite !lower_app, Hmid.
Qed.

(** The reply of [slack_events] does not depend on the gateway. *)
Lemma slack_events_reply_fixed env env' data :
  (slack_events env data).1 = (slack_events env' data).1.
Proof.
  unfold slack_events, slack_events_try.
  destruct data as [data|]; [|done].
  case_bool_decide; [done|].
  destruct (_ && _); [|done].
  destruct (attr _) as [text|e]; [|done].
  destruct (contains _ _); [|done]. simpl.
  destruct (chat_with_openai_returns env (Some text)
              (get (event_user (default empty_event (payload_event data)))))
    as [r ->].
  destruct (chat_with_openai_returns env' (Some text)
              (get (event_user (default empty_event (payload_event data)))))
    as [r' ->].
  done.
Qed.

Lemma slack_events_message env data event :
  get (payload_type data) ≠ Some "url_verification" →
  payload_event data = Some event →
  get (event_type event) = Some "message" →
  (slack_events env (Some data)).2 =
    if truthy (get (event_bot_id event)) then []
    else match event_text event with
         | Str text =>
             if contains TRIGGER (lower text)
             then [(Some text, get (event_user event))] else []
         | Absent | Null => []
         end.
Proof.
  intros Htype Hevent Hmsg. unfold slack_events, slack_events_try.
  rewrite bool_decide_eq_false_2 by done. rewrite Hevent. simpl.
  rewrite (bool_decide_eq_true_2 _ Hmsg). simpl.
  destruct (truthy _); simpl; [done|].
  destruct (event_text event) as [| |text]; simpl; [done|done|].
  by destruct (contains _ _).
Qed.
End events.

(** C9. A message event that reaches [slack_events] makes it call the
    gateway exactly when the event has no bot id (none, or an empty
    one) and its text contains the trigger phrase "ai assistant" in any
    mix of upper and lower case; the call then carries the text and the
    user of the event.  An event with a bot id never reaches the
    gateway.  The HTTP reply is the same whatever the gateway answers:
    the gateway's text is not part of it. *)
Theorem slack_events_calls_gateway_iff (env : openai_env)
    (data : events_payload) (event : slack_event) :
  get (payload_type data) ≠ Some "url_verification" →
  payload_event data = Some event →
  get (event_type event) = Some "message" →
  ((slack_events env (Some data)).2 ≠ []
   ↔ truthy (get (event_bot_id event)) = false
     ∧ ∃ text pre mid post,
         event_text event = Str text
         ∧ text = pre +:+ mid +:+ post ∧ lower mid = "ai assistant")
  ∧ (∀ text, (slack_events env (Some data)).2 ≠ [] →
       event_text event = Str text →
       (slack_events env (Some data)).2 = [(Some text, get (event_user event))]
       ∧ (slack_events env (Some data)).1 = EventsOk)
  ∧ (truthy (get (event_bot_id event)) = true →
     (slack_events env (Some data)).2 = [])
  ∧ (∀ env', (slack_events env' (Some data)).1
             = (slack_events env (Some data)).1).
Proof.
  intros Htype Hevent Hmsg.
  pose proof (slack_events_message env data event Htype Hevent Hmsg) as Hcalls.
  split_and!.
  - rewrite Hcalls. destruct (truthy _).
    { split; [done|]. by intros [? _]. }
    destruct (event_text event) as [| |text].
    { split; [done|]. by intros (_ & ? & ? & ? & ? & ? & _). }
    { split; [done|]. by intros (_ & ? & ? & ? & ? & ? & _). }
    destruct (contains TRIGGER (lower text)) eqn:Hin.
    + split; [intros _|done]. split; [done|].
      apply trigger_case_insensitive in Hin as (pre & mid & post & ? & ?).
      by exists text, pre, mid, post.
    + split; [done|]. intros (_ & text' & pre & mid & post & [= <-] & Hcut).
      assert (contains TRIGGER (lower text) = true) as Hyes
        by (apply trigger_case_insensitive; eauto).
      congruence.
  - intros text Hcalled Htext. split.
    + rewrite Hcalls in Hcalled |- *.
      destruct (truthy _); [done|]. rewrite Htext in Hcalled |- *.
      by destruct (contains _ _).
    + unfold slack_events, slack_events_try.
      rewrite bool_decide_eq_false_2 by done. rewrite Hevent. simpl.
      rewrite (bool_decide_eq_true_2 _ Hmsg). simpl.
      destruct (truthy (get (event_bot_id event))); [done|]. simpl.
      rewrite Htext. simpl. destruct (contains _ _); [|done]. simpl.
      by destruct (chat_with_openai_returns env (Some text)
                     (get (event_user event))) as [r ->].
  - intros Hbot. by rewrite Hcalls, Hbot.
  - intros env'. apply slack_events_reply_fixed.
Qed.

Lemma slack_events_calls_gateway_iff_witness :
  get (payload_type trigger_payload) ≠ Some "url_verification"
  ∧ payload_event trigger_payload = Some trigger_event
  ∧ get (event_type trigger_event) = Some "message"
  ∧ (slack_events no_openai (Some trigger_payload)).2 ≠ [].
Proof.
  assert (Htype : get (payload_type trigger_payload)
                  ≠ Some "url_verification") by discriminate.
  assert (Hevent : payload_event trigger_payload = Some trigger_event)
    by reflexivity.
  assert (Hmsg : get (event_type trigger_event) = Some "message")
    by reflexivity.
  split_and!; [exact Htype|exact Hevent|exact Hmsg|].
  apply (proj1 (slack_events_calls_gateway_iff no_openai trigger_payload
                  trigger_event Htype Hevent Hmsg)).
  split; [reflexivity|].
  exists "Hey AI Assistant, what is next?", "Hey ", "AI Assistant",
    ", what is next?".
  split_and!; reflexivity.
Defined.

(** ** Printed ids read back *)

Section printed_ids.
Implicit Types (x : N) (s : string).

Lemma digit_of_pretty_N_char x :
  (x < 10)%N → digit_of (pretty_N_char x) = Some (Z.of_N x).
Proof.
  intros Hx. destruct x as [|p]; [done|].
  do 4 (try destruct p as [p|p|]); first [done|lia].
Qed.

(** Reading the digits that [pretty_N_go] puts in front of [s]. *)
Lemma int_digits_pretty_N_go x :
  ∃ k : nat, ∀ acc s,
    int_digits acc (pretty_N_go x s)
    = int_digits (acc * 10 ^ Z.of_nat k + Z.of_N x) s.
Proof.
  induction (N.lt_wf_0 x) as [x _ IH].
  destruct (decide (x = 0)%N) as [->|Hx].
  { exists 0%nat. intros acc s. rewrite pretty_N_go_0. f_equal. simpl. lia. }
  destruct (IH (x `div` 10)%N) as [k Hk].
  { apply N.div_lt; lia. }
  exists (S k). intros acc s.
  rewrite pretty_N_go_step by lia. rewrite Hk. simpl.
  rewrite digit_of_pretty_N_char by (apply N.mod_lt; lia).
  f_equal. rewrite Nat2Z.inj_succ, Z.pow_succ_r by lia.
  assert (Z.of_N x = 10 * Z.of_N (x `div` 10) + Z.of_N (x `mod` 10)) as ->.
  { rewrite (N.div_mod x 10) at 1 by done.
    by rewrite N2Z.inj_add, N2Z.inj_mul. }
  ring.
Qed.

Lemma pretty_N_go_head x s :
  (0 < x)%N →
  ∃ y s', (y < 10)%N ∧ pretty_N_go x s = String (pretty_N_char y) s'.
Proof.
  revert s. induction (N.lt_wf_0 x) as [x _ IH]; intros s Hx.
  rewrite pretty_N_go_step by done.
  destruct (decide (x `div` 10 = 0)%N) as [Hq|Hq].
  - rewrite Hq, pretty_N_go_0. eexists _, _. split; [|done].
    apply N.mod_lt. lia.
  - apply IH; [apply N.div_lt; lia|by apply N.neq_0_lt_0].
Qed.

Lemma int_literal_digit_head (y : N) s :
  (y < 10)%N →
  int_literal (String (pretty_N_char y) s)
  = int_digits 0 (String (pretty_N_char y) s).
Proof.
  intros Hy. destruct y as [|p]; [done|].
  do 4 (try destruct p as [p|p|]); first [done|lia].
Qed.

Lemma int_unsigned_digit_head (y : N) s :
  (y < 10)%N →
  int_unsigned (String (pretty_N_char y) s)
  = int_digits 0 (String (pretty_N_char y) s).
Proof.
  intros Hy. simpl. by rewrite digit_of_pretty_N_char.
Qed.

Lemma int_digits_pretty_positive (p : positive) :
  int_digits 0 (pretty_N_go (N.pos p) "") = Some (Z.pos p).
Proof.
  destruct (int_digits_pretty_N_go (N.pos p)) as [k Hk].
  rewrite Hk. simpl. f_equal.
Qed.

Lemma int_literal_pretty (n : Z) : int_literal (pretty n) = Some n.
Proof.
  destruct n as [|p|p]; [done|..].
  - change (pretty (Z.pos p)) with (pretty_N_go (N.pos p) "").
    destruct (pretty_N_go_head (N.pos p) "") as (y & s' & Hy & Hs); [lia|].
    rewrite Hs, int_literal_digit_head, <-Hs by done.
    apply int_digits_pretty_positive.
  - change (pretty (Z.neg p)) with ("-" +:+ pretty_N_go (N.pos p) "").
    change (int_literal ("-" +:+ pretty_N_go (N.pos p) ""))
      with (Z.opp <$> int_unsigned (pretty_N_go (N.pos p) "")).
    destruct (pretty_N_go_head (N.pos p) "") as (y & s' & Hy & Hs); [lia|].
    rewrite Hs, int_unsigned_digit_head, <-Hs by done.
    by rewrite int_digits_pretty_positive.
Qed.
End printed_ids.

(** ** Requests without a user id *)

Section default_user.
Implicit Types (d : db) (r : task).

Lemma complete_task_owner now (task_id : Z) (u : string) d :
  INT64_MIN ≤ task_id ≤ INT64_MAX →
  (∃ r, r ∈ tasks_table d ∧ col_id r = task_id ∧ col_user_id r = Some u) →
  ∃ d', complete_task now task_id (Some u) d = Ret (true, d').
Proof.
  intros Hfit (r & Hin & Hr). rewrite complete_task_fits by done.
  eexists. rewrite bool_decide_eq_true_2; [done|].
  apply rowcount_pos. exists r. split; [done|].
  by apply complete_where_Some.
Qed.

Lemma tasks_post_created now data d i message d' :
  tasks now (POST (Some data)) d = (TaskCreated i message, d') →
  create_task now (get (post_title data))
    (get_default (post_user_id data) DEFAULT_USER)
    (get (post_channel_id data))
    (get_default (post_description data) "") d = Ret (i, d').
Proof.
  unfold tasks, tasks_try. case_bool_decide; [done|].
  destruct (create_task now (get (post_title data))
              (get_default (post_user_id data) DEFAULT_USER)
              (get (post_channel_id data))
              (get_default (post_description data) "") d)
    as [[j d'']|e]; simpl; [|done].
  by intros [= -> _ ->].
Qed.

(** A row stays in the table, with its id and owner, over any run. *)
Lemma row_survives ops d r :
  wf d → r ∈ tasks_table d →
  ∃ r', r' ∈ tasks_table (exec_all ops d)
        ∧ col_id r' = col_id r ∧ col_user_id r' = col_user_id r.
Proof.
  intros Hwf [k Hk]%list_elem_of_lookup.
  destruct (preserves_exec_all ops d Hwf k r Hk)
    as (r' & Hk' & Hid & Hu & _).
  exists r'. split; [|done]. apply list_elem_of_lookup. by exists k.
Qed.
End default_user.

(** C10 (as the code has it).  A [POST /tasks] request without
    [user_id] creates its task with owner ["api_user"], and a
    [POST /chat] request without [user_id] reaches the gateway as user
    ["api_user"], whoever sent them.  After any further operations the
    task is still listed for ["api_user"] and is in the listing that a
    [GET /tasks] without [user_id] returns.  A caller that omits
    [user_id] cannot complete it: the slash command, the only caller of
    [complete_task], passes a missing [user_id] as no owner, which
    matches no task; its listing is empty and its [complete] answers
    "not found or not yours" with the store unchanged.  The command
    completes the task when it is sent with the user id ["api_user"]. *)
Theorem missing_user_id_is_api_user (now : Z) (data : task_post)
    (d d' : db) (i : Z) (message : string) :
  reachable d →
  post_user_id data = Absent →
  tasks now (POST (Some data)) d = (TaskCreated i message, d') →
  (∃ r, r ∈ tasks_table d' ∧ col_id r = i
        ∧ col_user_id r = Some "api_user")
  ∧ (∀ ops now',
       (∃ r, r ∈ get_user_tasks (Some "api_user") (exec_all ops d')
             ∧ col_id r = i)
       ∧ (∃ listing,
            tasks now' (GET None) (exec_all ops d')
              = (TaskList listing, exec_all ops d')
            ∧ ∃ r, r ∈ listing ∧ col_id r = i
                   ∧ col_user_id r = Some "api_user")
       ∧ get_user_tasks None (exec_all ops d') = []
       ∧ complete_task now' i None (exec_all ops d')
         = Ret (false, exec_all ops d')
       ∧ (∀ env channel_id,
            slack_commands env now'
              (CommandForm (Some "/task") (Some ("complete " +:+ pretty i))
                           None channel_id) (exec_all ops d')
            = (SlackReply ("Task #" +:+ pretty i
                             +:+ " not found or not yours.")
                          "ephemeral" 200,
               exec_all ops d', []))
       ∧ (∀ env channel_id, ∃ d'',
            slack_commands env now'
              (CommandForm (Some "/task") (Some ("complete " +:+ pretty i))
                           (Some "api_user") channel_id) (exec_all ops d')
            = (SlackReply ("Task #" +:+ pretty i +:+ " marked as complete!")
                          "in_channel" 200,
               d'', [])
            ∧ ∃ r, r ∈ tasks_table d'' ∧ col_id r = i
                   ∧ col_status r = "completed"
                   ∧ col_user_id r = Some "api_user"))
  ∧ (∀ env message, message ≠ Absent →
       (chat env now (Some (ChatPost message Absent))).2
       = [(get message, Some "api_user")]).
Proof.
  intros Hd Huser Hpost. apply tasks_post_created in Hpost.
  rewrite Huser in Hpost. simpl in Hpost. unfold DEFAULT_USER in Hpost.
  assert (Hwf' : wf d') by (eapply wf_create; [by apply reachable_wf|done]).
  destruct (create_task_pending _ _ _ _ _ _ _ _ Hpost)
    as (r & Hin & Hid & _ & Hu & _).
  assert (Hfit : INT64_MIN ≤ i ≤ INT64_MAX).
  { apply create_task_Ret in Hpost as (_ & _ & -> & Hroom & _).
    pose proof (high_nonneg d). unfold INT64_MIN. lia. }
  assert (Hroute : route ("complete " +:+ pretty i) = Complete i).
  { change ("complete " +:+ pretty i) with ("complete" +:+ " " +:+ pretty i).
    rewrite route_app by done. simpl. by rewrite int_literal_pretty. }
  split_and!.
  - by exists r.
  - intros ops now'.
    destruct (row_survives ops d' r Hwf' Hin) as (r' & Hin' & Hid' & Hu').
    split_and!.
    + exists r'. split; [|congruence].
      apply elem_of_get_user_tasks. split; [done|congruence].
    + eexists. split; [done|]. exists r'.
      split_and!; [by apply elem_of_get_all_tasks|congruence|congruence].
    + apply get_user_tasks_NULL.
    + by apply complete_task_NULL.
    + intros env channel_id. rewrite slack_commands_task, Hroute.
      unfold dispatch. by rewrite complete_task_NULL.
    + intros env channel_id. rewrite slack_commands_task, Hroute.
      unfold dispatch. rewrite complete_task_fits by done.
      rewrite bool_decide_eq_true_2.
      2: { apply rowcount_pos. exists r'. split; [done|].
           apply complete_where_Some. split; congruence. }
      eexists. split; [done|]. simpl.
      exists (set_completed now' r').
      split_and!; [|simpl; congruence|done|simpl; congruence].
      apply list_elem_of_fmap. exists r'. split; [|done].
      assert (complete_where i (Some "api_user") r' = true) as ->; [|done].
      apply Is_true_true, complete_where_Some. split; congruence.
  - intros env msg Hmsg. unfold chat, chat_try. simpl.
    rewrite bool_decide_eq_false_2 by done. done.
Qed.

Lemma missing_user_id_is_api_user_witness :
  reachable (init_db None)
  ∧ tasks 100 (POST (Some (TaskPost (Str "book venue") Absent Absent Absent)))
          (init_db None)
    = (TaskCreated 1 "Task created successfully",
       Db [Task 1 "book venue" (Some "") "pending" 100 100 (Some "api_user")
                None] 1)
  ∧ complete_task 200 1 None
      (Db [Task 1 "book venue" (Some "") "pending" 100 100
                (Some "api_user") None] 1)
    = Ret (false,
           Db [Task 1 "book venue" (Some "") "pending" 100 100
                    (Some "api_user") None] 1).
Proof.
  assert (Hpost :
    tasks 100 (POST (Some (TaskPost (Str "book venue") Absent Absent Absent)))
          (init_db None)
    = (TaskCreated 1 "Task created successfully",
       Db [Task 1 "book venue" (Some "") "pending" 100 100 (Some "api_user")
                None] 1)) by reflexivity.
  split_and!; [exact reachable_init|exact Hpost|].
  destruct (missing_user_id_is_api_user 100
              (TaskPost (Str "book venue") Absent Absent Absent)
              (init_db None) _ 1 _ reachable_init eq_refl Hpost)
    as (_ & Hlater & _).
  destruct (Hlater [] 200) as (_ & _ & _ & Hcomplete & _).
  exact Hcomplete.
Defined.

(** C10, the claim as stated fails: a task created without [user_id]
    is owned by ["api_user"], yet the slash command sent without
    [user_id] does not complete it. *)
Lemma omitted_user_id_cannot_complete :
  tasks 100 (POST (Some (TaskPost (Str "book venue") Absent Absent Absent)))
        (init_db None)
  = (TaskCreated 1 "Task created successfully",
     Db [Task 1 "book venue" (Some "") "pending" 100 100 (Some "api_user")
              None] 1)
  ∧ slack_commands no_openai 200
      (CommandForm (Some "/task") (Some "complete 1") None None)
      (Db [Task 1 "book venue" (Some "") "pending" 100 100 (Some "api_user")
                None] 1)
    = (SlackReply "Task #1 not found or not yours." "ephemeral" 200,
       Db [Task 1 "book venue" (Some "") "pending" 100 100 (Some "api_user")
                None] 1,
       [])
  ∧ complete_task 200 1 None
      (Db [Task 1 "book venue" (Some "") "pending" 100 100 (Some "api_user")
                None] 1)
    = Ret (false,
           Db [Task 1 "book venue" (Some "") "pending" 100 100
                    (Some "api_user") None] 1).
Proof. split_and!; reflexivity. Qed.

(** ** A session through the slash command

    The walk of the specification's last testable property: create a
    task, see it listed as pending, complete it, see it listed as
    completed. *)
Example slash_command_session :
  let form text :=
    CommandForm (Some "/task") (Some text) (Some "U1") (Some "C1") in
  let '(r1, d1, _) :=
    slack_commands no_openai 100 (form "create ship the deck")
                   (init_db None) in
  let '(r2, d2, _) := slack_commands no_openai 101 (form "list") d1 in
  let '(r3, d3, _) := slack_commands no_openai 102 (form "complete 1") d2 in
  let '(r4, d4, _) := slack_commands no_openai 103 (form "list") d3 in
  reply_text r1 = "Task created with ID: 1"
  ∧ reply_text r2 = "Your tasks:" +:+ newline
                      +:+ "#1: ship the deck (pending)"
  ∧ reply_text r3 = "Task #1 marked as complete!"
  ∧ reply_text r4 = "Your tasks:" +:+ newline
                      +:+ "#1: ship the deck (completed)"
  ∧ d4 = Db [Task 1 "ship the deck" (Some "") "completed" 100 102
                  (Some "U1") (Some "C1")] 1.
Proof. vm_compute. by split_and!. Qed.

(** * Further properties of the program *)

(** ** Ids, columns and timestamps over runs *)

Section runs.
Implicit Types (d : db) (r : task) (rows : list task).

Lemma db_eta d : Db (tasks_table d) (sqlite_sequence d) = d.
Proof. by destruct d. Qed.

Lemma max_rowid_le rows (b : Z) :
  0 ≤ b → (∀ r, r ∈ rows → col_id r ≤ b) → max_rowid rows ≤ b.
Proof.
  intros Hb. unfold max_rowid.
  induction rows as [|r rows IH]; intros Hle; csimpl; [done|].
  assert (col_id r ≤ b) by (apply Hle; left).
  assert (foldr Z.max 0 (col_id <$> rows) ≤ b)
    by (apply IH; intros; apply Hle; by right).
  lia.
Qed.

Lemma dense_high d : dense d → high d = Z.of_nat (length (tasks_table d)).
Proof.
  intros [Hids Hseq]. unfold high. rewrite Hseq.
  assert (max_rowid (tasks_table d) ≤ Z.of_nat (length (tasks_table d))).
  { apply max_rowid_le; [lia|].
    intros r [k Hk]%list_elem_of_lookup. rewrite (Hids k r Hk).
    apply lookup_lt_Some in Hk. lia. }
  lia.
Qed.

Lemma dense_exec o d : dense d → dense (exec o d).
Proof.
  intros Hd. pose proof (dense_high d Hd) as Hhigh.
  destruct Hd as [Hids Hseq].
  destruct o as [now title u c desc|now tid u]; unfold exec.
  - destruct (create_task now title u c desc d) as [[i d']|] eqn:E;
      [|by split].
    apply create_task_Ret in E as (t & _ & -> & _ & ->). split; simpl.
    + intros k r [Hk|[Hk Hr]]%lookup_app_Some.
      * by apply Hids.
      * apply list_lookup_singleton_Some in Hr as [Hk0 <-]. simpl. lia.
    + rewrite length_app. simpl. lia.
  - destruct (complete_task now tid u d) as [[b d']|] eqn:E; [|by split].
    apply complete_task_ids in E as [Hsame Hseq'].
    assert (length (tasks_table d') = length (tasks_table d)) as Hlen.
    { by rewrite <-(length_fmap col_id), Hsame, length_fmap. }
    split; [|by rewrite Hseq', Hlen].
    intros k r' Hk.
    assert ((col_id <$> tasks_table d) !! k = Some (col_id r')) as Hold.
    { by rewrite <-Hsame, list_lookup_fmap, Hk. }
    rewrite list_lookup_fmap in Hold.
    apply fmap_Some in Hold as (r & Hr & ->). by apply Hids.
Qed.

Lemma same_data_refl r : same_data r r.
Proof. by repeat split. Qed.

Lemma kept_refl r : kept r r.
Proof. split; [apply same_data_refl|by left]. Qed.

Lemma kept_trans r1 r2 r3 : kept r1 r2 → kept r2 r3 → kept r1 r3.
Proof.
  intros [(?&?&?&?&?&?) H12] [(?&?&?&?&?&?) H23].
  split; [repeat split; congruence|].
  destruct H23 as [->|?]; [done|by right].
Qed.

Lemma exec_kept o d k r :
  tasks_table d !! k = Some r →
  ∃ r', tasks_table (exec o d) !! k = Some r' ∧ kept r r'.
Proof.
  intros Hk. destruct o as [now title u c desc|now tid u]; unfold exec.
  - destruct (create_task now title u c desc d) as [[i d']|] eqn:E.
    + apply create_task_Ret in E as (t & _ & _ & _ & ->).
      exists r. split; [by apply lookup_app_l_Some|apply kept_refl].
    + exists r. split; [done|apply kept_refl].
  - unfold complete_task. destruct (bind_int tid) as [tid'|]; simpl.
    + rewrite list_lookup_fmap, Hk. simpl. eexists. split; [done|].
      destruct (complete_where tid' u r); [|apply kept_refl].
      split; [by repeat split|by right].
    + exists r. split; [done|apply kept_refl].
Qed.

Lemma exec_all_kept ops d k r :
  tasks_table d !! k = Some r →
  ∃ r', tasks_table (exec_all ops d) !! k = Some r' ∧ kept r r'.
Proof.
  revert d r. induction ops as [|o ops IH]; intros d r Hk; simpl.
  - exists r. split; [done|apply kept_refl].
  - destruct (exec_kept o d k r Hk) as (r1 & Hk1 & H1).
    destruct (IH _ _ Hk1) as (r2 & Hk2 & H2).
    exists r2. split; [done|by eapply kept_trans].
Qed.
End runs.

(** X1. In every store the program can reach, the ids are 1, 2, 3, ...
    in the order of insertion, without gaps, and the sequence counter
    equals the number of rows: an id is consumed only by a create that
    succeeds, and nothing is ever deleted. *)
Theorem reachable_ids_dense (d : db) :
  reachable d →
  (∀ k r, tasks_table d !! k = Some r → col_id r = Z.of_nat k + 1)
  ∧ sqlite_sequence d = Z.of_nat (length (tasks_table d))
  ∧ ∀ now title user_id channel_id description i d',
      create_task now title user_id channel_id description d = Ret (i, d') →
      i = Z.of_nat (length (tasks_table d)) + 1.
Proof.
  intros Hd.
  assert (dense d) as Hdense.
  { induction Hd; [by split|by apply dense_exec]. }
  destruct Hdense as [Hids Hseq]. split_and!; [done|done|].
  intros now title u c desc i d' (_ & _ & -> & _)%create_task_Ret.
  by rewrite dense_high.
Qed.

Lemma reachable_ids_dense_witness :
  reachable sample_db ∧ sqlite_sequence sample_db = 1.
Proof.
  assert (Hreach : reachable sample_db).
  { exact (reachable_exec
             (OpCreate 100 (Some "ship the deck") (Some "U1") (Some "C1")
                       (Some ""))
             (init_db None) reachable_init). }
  split; [exact Hreach|].
  exact (proj1 (proj2 (reachable_ids_dense sample_db Hreach))).
Defined.

(** X2. Whatever operations run, a row stays where it is and keeps its
    id, title, description, creation time, owner and channel; a row
    that is not exactly as before has status completed.  Status and
    [updated_at] are the only columns ever rewritten. *)
Theorem run_keeps_row_data (ops : list op) (d : db) (k : nat) (r : task) :
  tasks_table d !! k = Some r →
  ∃ r', tasks_table (exec_all ops d) !! k = Some r'
        ∧ col_id r' = col_id r
        ∧ col_title r' = col_title r
        ∧ col_description r' = col_description r
        ∧ col_created_at r' = col_created_at r
        ∧ col_user_id r' = col_user_id r
        ∧ col_channel_id r' = col_channel_id r
        ∧ (r' = r ∨ col_status r' = "completed").
Proof.
  intros Hk. destruct (exec_all_kept ops d k r Hk) as (r' & Hk' & Hdata & Hst).
  exists r'. by destruct Hdata as (?&?&?&?&?&?).
Qed.

Lemma run_keeps_row_data_witness :
  tasks_table sample_db !! 0%nat = Some sample_task
  ∧ ∃ r', tasks_table
            (exec_all [OpComplete 200 1 (Some "U1")] sample_db) !! 0%nat
          = Some r'
          ∧ col_title r' = "ship the deck".
Proof.
  assert (Hk : tasks_table sample_db !! 0%nat = Some sample_task)
    by reflexivity.
  split; [exact Hk|].
  destruct (run_keeps_row_data [OpComplete 200 1 (Some "U1")] sample_db
              0%nat sample_task Hk) as (r' & Hk' & _ & Htitle & _).
  exists r'. split; [exact Hk'|exact Htitle].
Defined.

Section clock.
Implicit Types (d : db) (r : task) (T : Z).

Lemma clocked_mono T T' d : T ≤ T' → clocked T d → clocked T' d.
Proof.
  intros HT [Hup Hsorted]. split; [|done].
  eapply Forall_impl; [exact Hup|]. intros r [??]. simpl. lia.
Qed.

Lemma clocked_exec T o d : T ≤ op_time o → clocked T d → clocked (op_time o) (exec o d).
Proof.
  intros HT Hd. pose proof (clocked_mono _ _ d HT Hd) as Hd'.
  destruct Hd as [Hup Hsorted].
  destruct o as [now title u c desc|now tid u]; unfold exec; simpl in *.
  - destruct (create_task now title u c desc d) as [[i d']|] eqn:E; [|done].
    apply create_task_Ret in E as (t & _ & _ & _ & ->). split; simpl.
    + apply Forall_app. split; [apply Hd'|]. constructor; [simpl; lia|done].
    + apply StronglySorted_app_2; [|done|repeat constructor].
      intros r1 r2 Hr1 ->%list_elem_of_singleton. simpl.
      rewrite Forall_forall in Hup. destruct (Hup r1 Hr1). lia.
  - unfold complete_task. destruct (bind_int tid) as [tid'|]; simpl; [|done].
    split; simpl.
    + apply Forall_fmap. eapply Forall_impl; [exact Hup|].
      intros r [??]. simpl. destruct (complete_where tid' u r); simpl; lia.
    + eapply StronglySorted_fmap; [|exact Hsorted].
      intros r1 r2 Hle.
      by destruct (complete_where tid' u r1), (complete_where tid' u r2).
Qed.

Lemma dense_init : dense (init_db None).
Proof. split; [|done]. intros k r Hk. by destruct k. Qed.

Lemma dense_exec_all ops d : dense d → dense (exec_all ops d).
Proof.
  revert d. induction ops as [|o ops IH]; intros d Hd; simpl; [done|].
  by apply IH, dense_exec.
Qed.

Lemma clocked_exec_all T ops d :
  StronglySorted Z.le (T :: (op_time <$> ops)) →
  clocked T d →
  ∃ T', clocked T' (exec_all ops d).
Proof.
  revert T d. induction ops as [|o ops IH]; intros T d Hsorted Hd; simpl.
  { by exists T. }
  csimpl in Hsorted. apply StronglySorted_inv in Hsorted as [Htail Hhead].
  apply (IH (op_time o)); [done|].
  apply (clocked_exec T); [|done].
  by apply Forall_cons in Hhead as [? _].
Qed.
End clock.

(** X3. When the clock never goes back between operations, every task
    of a store built from the empty table has [created_at] no later
    than [updated_at], and creation times never decrease from one row
    to the next in insertion order: a later id is never older. *)
Theorem monotone_clock_timestamps (ops : list op) :
  StronglySorted Z.le (op_time <$> ops) →
  Forall (λ r, col_created_at r ≤ col_updated_at r)
         (tasks_table (exec_all ops (init_db None)))
  ∧ (∀ j k a b,
       tasks_table (exec_all ops (init_db None)) !! j = Some a →
       tasks_table (exec_all ops (init_db None)) !! k = Some b →
       (j < k)%nat → col_id a < col_id b ∧ col_created_at a ≤ col_created_at b).
Proof.
  intros Hsorted.
  assert (∃ T, clocked T (exec_all ops (init_db None))) as [T [Hup Hord]].
  { destruct ops as [|o ops]; [exists 0; by split; constructor|].
    simpl. csimpl in Hsorted.
    apply (clocked_exec_all (op_time o)); [done|].
    apply (clocked_exec (op_time o)); [done|]. split; constructor. }
  split.
  - eapply Forall_impl; [exact Hup|]. by intros r [? _].
  - intros j k a b Hj Hk Hjk.
    destruct (dense_exec_all ops _ dense_init) as [Hids _].
    rewrite (Hids j a Hj), (Hids k b Hk). split; [lia|].
    pose proof (lookup_lt_Some _ _ _ Hk) as Hlen.
    rewrite <-(take_drop_middle _ _ _ Hk) in Hord, Hj.
    apply StronglySorted_app in Hord as (Hcross & _ & _).
    apply Hcross; [|left].
    rewrite lookup_app_l in Hj by (rewrite length_take; lia).
    by eapply list_elem_of_lookup_2.
Qed.

Lemma monotone_clock_timestamps_witness :
  StronglySorted Z.le
    (op_time <$> [OpCreate 100 (Some "a") (Some "U1") None (Some "");
                  OpComplete 130 1 (Some "U1")])
  ∧ Forall (λ r, col_created_at r ≤ col_updated_at r)
      (tasks_table
         (exec_all [OpCreate 100 (Some "a") (Some "U1") None (Some "");
                    OpComplete 130 1 (Some "U1")] (init_db None))).
Proof.
  assert (Hclock : StronglySorted Z.le
    (op_time <$> [OpCreate 100 (Some "a") (Some "U1") None (Some "");
                  OpComplete 130 1 (Some "U1")])).
  { repeat constructor. simpl. lia. }
  split; [exact Hclock|].
  exact (proj1 (monotone_clock_timestamps _ Hclock)).
Defined.

(** ** Ownership *)

Section ownership.
Implicit Types (d : db) (r : task) (rows : list task).

Lemma filter_fmap_fixed (P : task → bool) (f : task → task) rows :
  (∀ r, P (f r) = P r) → (∀ r, P r = true → f r = r) →
  filter (λ r, P r) (f <$> rows) = filter (λ r, P r) rows.
Proof.
  intros Hsame Hfix. induction rows as [|r rows IH]; [done|].
  rewrite fmap_cons, !filter_cons, IH, Hsame.
  destruct (decide (P r)) as [HP|HP]; [|done].
  by rewrite Hfix by by apply Is_true_true.
Qed.

Lemma owned_by_other (u : option string) (v : string) r :
  u ≠ Some v → owned_by u r = true → owned_by (Some v) r = false.
Proof.
  intros Hne. unfold owned_by, sql_text_eq.
  destruct (col_user_id r) as [a|], u as [b|]; try done.
  rewrite !bool_decide_eq_true. intros ->.
  apply bool_decide_eq_false. congruence.
Qed.

(** A create or complete on behalf of [u] leaves the rows of every
    other user [v] as they are. *)
Lemma create_task_filter_other now title u channel_id description d i d' v :
  u ≠ Some v →
  create_task now title u channel_id description d = Ret (i, d') →
  filter (λ r, owned_by (Some v) r) (tasks_table d')
  = filter (λ r, owned_by (Some v) r) (tasks_table d).
Proof.
  intros Hne (t & _ & _ & _ & ->)%create_task_Ret. simpl.
  rewrite filter_app, filter_cons, filter_nil.
  destruct (decide _) as [Hown|]; [|by rewrite app_nil_r].
  apply owned_by_Some in Hown. simpl in Hown. congruence.
Qed.

Lemma complete_task_filter_other now (task_id : Z) u d done d' v :
  u ≠ Some v →
  complete_task now task_id u d = Ret (done, d') →
  filter (λ r, owned_by (Some v) r) (tasks_table d')
  = filter (λ r, owned_by (Some v) r) (tasks_table d).
Proof.
  intros Hne. unfold complete_task.
  destruct (bind_int task_id) as [tid|]; [|done]. simpl.
  intros [= _ <-]. simpl. apply filter_fmap_fixed.
  - intros r. by destruct (complete_where tid u r).
  - intros r Hv. destruct (complete_where tid u r) eqn:Hhit; [|done].
    apply andb_true_iff in Hhit as [_ Hu].
    by rewrite (owned_by_other u v r Hne Hu) in Hv.
Qed.

Lemma dispatch_filter_other now c u channel_id d reply d' v :
  u ≠ Some v →
  dispatch now c u channel_id d = Ret (reply, d') →
  filter (λ r, owned_by (Some v) r) (tasks_table d')
  = filter (λ r, owned_by (Some v) r) (tasks_table d).
Proof.
  intros Hne. destruct c as [title| |task_id|message|message];
    unfold dispatch.
  - destruct (create_task now (Some title) u channel_id (Some "") d)
      as [[i d1]|] eqn:E; [|done].
    simpl. intros [= _ <-]. by eapply create_task_filter_other.
  - by intros [= _ <-].
  - destruct (complete_task now task_id u d) as [[b d1]|] eqn:E; [|done].
    simpl. intros Hret.
    assert (d' = d1) as -> by (destruct b; by injection Hret).
    by eapply complete_task_filter_other.
  - by intros [= _ <-].
  - by intros [= _ <-].
Qed.
End ownership.

(** X4. A task is completed by its creator and by nobody else: after
    [create_task] for user [u] returned id [i], [complete_task i u]
    returns [True] and leaves that task completed, while for any other
    caller, or none, it returns [False] and changes nothing. *)
Theorem creator_alone_completes (now now' : Z) (title u : string)
    (channel_id description : option string) (d d' : db) (i : Z) :
  create_task now (Some title) (Some u) channel_id description d
    = Ret (i, d') →
  (∃ d'', complete_task now' i (Some u) d' = Ret (true, d'')
          ∧ tasks_table d''
            = (tasks_table d
                 ++ [Task i title description "completed" now now' (Some u)
                          channel_id])%list)
  ∧ (∀ v, v ≠ Some u → complete_task now' i v d' = Ret (false, d')).
Proof.
  intros Hcreate.
  pose proof Hcreate as (t & [= <-] & Hi & Hroom & ->)%create_task_Ret.
  assert (Hfit : INT64_MIN ≤ i ≤ INT64_MAX).
  { pose proof (high_nonneg d). unfold INT64_MIN. lia. }
  assert (Hold : ∀ v r, r ∈ tasks_table d → complete_where i v r = false).
  { intros v r Hr%high_ge. unfold complete_where.
    rewrite bool_decide_eq_false_2 by lia. done. }
  split.
  - eexists. rewrite complete_task_fits by done. split.
    + f_equal. f_equal. apply bool_decide_eq_true, rowcount_pos.
      eexists. split; [apply elem_of_app; right; left|].
      apply complete_where_Some. done.
    + simpl. rewrite fmap_app, update_no_hit by apply Hold. f_equal.
      simpl. unfold complete_where, owned_by. simpl.
      by rewrite !bool_decide_eq_true_2.
  - intros v Hv. rewrite complete_task_fits by done.
    assert (Hmiss : ∀ r,
      r ∈ (tasks_table d
             ++ [Task i title description "pending" now now (Some u)
                      channel_id])%list →
      complete_where i v r = false).
    { intros r [Hr| ->%list_elem_of_singleton]%elem_of_app; [by apply Hold|].
      unfold complete_where, owned_by, sql_text_eq. simpl.
      destruct v as [v|]; [|apply andb_false_r].
      rewrite (bool_decide_eq_false_2 (u = v)) by congruence.
      apply andb_false_r. }
    simpl. rewrite update_no_hit by done.
    rewrite bool_decide_eq_false_2; [done|].
    rewrite rowcount_pos. intros (r & Hr & Hhit).
    by rewrite (Hmiss r Hr) in Hhit.
Qed.

Lemma creator_alone_completes_witness :
  create_task 100 (Some "a") (Some "U1") None (Some "") (init_db None)
  = Ret (1, Db [Task 1 "a" (Some "") "pending" 100 100 (Some "U1") None] 1)
  ∧ complete_task 200 1 (Some "U2")
      (Db [Task 1 "a" (Some "") "pending" 100 100 (Some "U1") None] 1)
    = Ret (false,
           Db [Task 1 "a" (Some "") "pending" 100 100 (Some "U1") None] 1).
Proof.
  assert (Hcreate :
    create_task 100 (Some "a") (Some "U1") None (Some "") (init_db None)
    = Ret (1, Db [Task 1 "a" (Some "") "pending" 100 100 (Some "U1") None] 1))
    by reflexivity.
  split; [exact Hcreate|].
  apply (proj2 (creator_alone_completes 100 200 "a" "U1" None (Some "")
                  (init_db None) _ 1 Hcreate)).
  discriminate.
Defined.

Section ownerless.
Implicit Types (d : db) (r : task).

Lemma owned_by_NULL_column user_id r :
  col_user_id r = None → owned_by user_id r = false.
Proof. intros H. unfold owned_by. by rewrite H. Qed.

Lemma exec_keeps_ownerless o d k r :
  tasks_table d !! k = Some r → col_user_id r = None →
  tasks_table (exec o d) !! k = Some r.
Proof.
  intros Hk Hnull. destruct o as [now title u c desc|now tid u]; unfold exec.
  - destruct (create_task now title u c desc d) as [[i d']|] eqn:E; [|done].
    apply create_task_Ret in E as (t & _ & _ & _ & ->).
    by apply lookup_app_l_Some.
  - unfold complete_task. destruct (bind_int tid) as [tid'|]; [|done]. simpl.
    rewrite list_lookup_fmap, Hk. simpl. unfold complete_where.
    by rewrite (owned_by_NULL_column u r Hnull), andb_false_r.
Qed.

Lemma exec_all_keeps_ownerless ops d k r :
  tasks_table d !! k = Some r → col_user_id r = None →
  tasks_table (exec_all ops d) !! k = Some r.
Proof.
  revert d. induction ops as [|o ops IH]; intros d Hk Hnull; simpl; [done|].
  apply IH; [|done]. by apply exec_keeps_ownerless.
Qed.

Lemma wf_exec_all ops d : wf d → wf (exec_all ops d).
Proof.
  revert d. induction ops as [|o ops IH]; intros d Hd; simpl; [done|].
  by apply IH, wf_exec.
Qed.

Lemma complete_task_miss now (task_id : Z) user_id d :
  INT64_MIN ≤ task_id ≤ INT64_MAX →
  (∀ r, r ∈ tasks_table d → complete_where task_id user_id r = false) →
  complete_task now task_id user_id d = Ret (false, d).
Proof.
  intros Hfit Hmiss. rewrite complete_task_fits by done.
  rewrite update_no_hit by done.
  rewrite bool_decide_eq_false_2; [by rewrite db_eta|].
  rewrite rowcount_pos. intros (r & Hin & Hr). by rewrite Hmiss in Hr.
Qed.

(** In a table with distinct ids, a row is determined by its id. *)
Lemma wf_same_id d r1 r2 :
  wf d → r1 ∈ tasks_table d → r2 ∈ tasks_table d →
  col_id r1 = col_id r2 → r1 = r2.
Proof.
  intros [Hnd _ _] [j Hj]%list_elem_of_lookup [k Hk]%list_elem_of_lookup Hid.
  assert (j = k) as ->; [|congruence].
  eapply NoDup_lookup; [exact Hnd| |].
  - rewrite list_lookup_fmap, Hj. done.
  - rewrite list_lookup_fmap, Hk. simpl. by rewrite Hid.
Qed.
End ownerless.

(** X5. A task created without an owner (as the slash command does
    when the form carries no [user_id]) is stuck: whatever operations
    follow, the row stays exactly as inserted, still pending; it is in
    no user's listing, and [complete_task] on its id returns [False]
    for every caller and changes nothing. *)
Theorem ownerless_task_is_stuck (now : Z) (title : string)
    (channel_id description : option string) (d d' : db) (i : Z)
    (ops : list op) :
  reachable d →
  create_task now (Some title) None channel_id description d = Ret (i, d') →
  Task i title description "pending" now now None channel_id
    ∈ tasks_table (exec_all ops d')
  ∧ (∀ user_id r, r ∈ get_user_tasks user_id (exec_all ops d') →
       col_id r ≠ i)
  ∧ (∀ now' user_id,
       complete_task now' i user_id (exec_all ops d')
       = Ret (false, exec_all ops d')).
Proof.
  intros Hd Hcreate.
  assert (Hwf : wf (exec_all ops d')).
  { apply wf_exec_all. eapply wf_create; [by apply reachable_wf|done]. }
  pose proof Hcreate as (t & [= <-] & Hi & Hroom & Hd')%create_task_Ret.
  set (row := Task i title description "pending" now now None channel_id).
  assert (Hrow : row ∈ tasks_table (exec_all ops d')).
  { apply list_elem_of_lookup. exists (length (tasks_table d)).
    apply exec_all_keeps_ownerless; [|done].
    rewrite Hd'. simpl. by apply list_lookup_middle. }
  split_and!.
  - done.
  - intros user_id r Hr Hid. unfold get_user_tasks in Hr.
    rewrite order_by_Permutation in Hr.
    apply list_elem_of_filter in Hr as [Hown Hin].
    assert (r = row) as -> by (by apply (wf_same_id (exec_all ops d'))).
    by rewrite (owned_by_NULL_column user_id row) in Hown.
  - intros now' user_id. apply complete_task_miss.
    { pose proof (high_nonneg d). unfold INT64_MIN. lia. }
    intros r Hin. unfold complete_where. case_bool_decide as Hid; [|done].
    assert (r = row) as -> by (by apply (wf_same_id (exec_all ops d'))).
    by rewrite (owned_by_NULL_column user_id row).
Qed.

Lemma ownerless_task_is_stuck_witness :
  reachable (init_db None)
  ∧ create_task 100 (Some "a") None None (Some "") (init_db None)
    = Ret (1, Db [Task 1 "a" (Some "") "pending" 100 100 None None] 1)
  ∧ complete_task 200 1 None
      (exec_all [OpComplete 150 1 (Some "U1")]
         (Db [Task 1 "a" (Some "") "pending" 100 100 None None] 1))
    = Ret (false,
           exec_all [OpComplete 150 1 (Some "U1")]
             (Db [Task 1 "a" (Some "") "pending" 100 100 None None] 1)).
Proof.
  assert (Hcreate :
    create_task 100 (Some "a") None None (Some "") (init_db None)
    = Ret (1, Db [Task 1 "a" (Some "") "pending" 100 100 None None] 1))
    by reflexivity.
  split_and!; [exact reachable_init|exact Hcreate|].
  exact (proj2 (proj2 (ownerless_task_is_stuck 100 "a" None (Some "")
                         (init_db None) _ 1 [OpComplete 150 1 (Some "U1")]
                         reachable_init Hcreate)) 200 None).
Defined.

(** X6. What one user does never changes what another user sees: after
    any slash command sent by a user other than [v], and after any
    [POST /tasks] whose owner is not [v], the tasks listed for [v] and
    the text of [v]'s list reply are exactly as before. *)
Theorem other_users_unaffected (v : string) (d : db) :
  (∀ env now form, form_user_id form ≠ Some v →
     get_user_tasks (Some v) (slack_commands env now form d).1.2
     = get_user_tasks (Some v) d
     ∧ list_reply (Some v) (slack_commands env now form d).1.2
       = list_reply (Some v) d)
  ∧ (∀ now data,
       get_default (post_user_id data) DEFAULT_USER ≠ Some v →
       get_user_tasks (Some v) (tasks now (POST (Some data)) d).2
       = get_user_tasks (Some v) d).
Proof.
  split.
  - intros env now [command text u channel_id] Hne. simpl in Hne.
    assert (filter (λ r, owned_by (Some v) r)
              (tasks_table (slack_commands env now
                 (CommandForm command text u channel_id) d).1.2)
            = filter (λ r, owned_by (Some v) r) (tasks_table d)) as Hsame.
    { unfold slack_commands, slack_commands_try. simpl.
      repeat case_bool_decide; simpl; try done.
      - by destruct (chat_with_openai _ _ _).
      - rewrite task_command_route by done.
        destruct (dispatch now (route (default "" text)) u channel_id d)
          as [[reply d']|] eqn:E; [|done].
        simpl. by eapply dispatch_filter_other. }
    unfold list_reply, get_user_tasks. by rewrite Hsame.
  - intros now data Hne. unfold get_user_tasks. f_equal.
    unfold tasks, tasks_try. case_bool_decide; [done|].
    destruct (create_task now (get (post_title data))
                (get_default (post_user_id data) DEFAULT_USER)
                (get (post_channel_id data))
                (get_default (post_description data) "") d)
      as [[i d']|] eqn:E; simpl; [|done].
    by eapply create_task_filter_other.
Qed.

Lemma other_users_unaffected_witness :
  form_user_id (CommandForm (Some "/task") (Some "complete 1") (Some "U2")
                            None) ≠ Some "U1"
  ∧ get_user_tasks (Some "U1")
      (slack_commands no_openai 200
         (CommandForm (Some "/task") (Some "complete 1") (Some "U2") None)
         sample_db).1.2
    = get_user_tasks (Some "U1") sample_db.
Proof.
  assert (Hne : form_user_id (CommandForm (Some "/task") (Some "complete 1")
                                          (Some "U2") None) ≠ Some "U1")
    by discriminate.
  split; [exact Hne|].
  exact (proj1 (proj1 (other_users_unaffected "U1" sample_db)
                  no_openai 200 _ Hne)).
Defined.

(** X7. [get_all_tasks] returns every row of the table exactly once,
    most recent [created_at] first, and the listing of a user is, up to
    the order of rows with equal timestamps, the part of it that the
    user owns. *)
Theorem get_all_tasks_exact (d : db) :
  get_all_tasks d ≡ₚ tasks_table d
  ∧ StronglySorted (λ a b, col_created_at b ≤ col_created_at a)
                   (get_all_tasks d)
  ∧ length (get_all_tasks d) = length (tasks_table d)
  ∧ ∀ u : string,
      get_user_tasks (Some u) d
      ≡ₚ filter (λ r, col_user_id r = Some u) (get_all_tasks d).
Proof.
  split_and!.
  - apply order_by_Permutation.
  - apply order_by_Sorted.
  - unfold get_all_tasks. by rewrite order_by_Permutation.
  - intros u. unfold get_user_tasks, get_all_tasks.
    rewrite !order_by_Permutation.
    erewrite list_filter_iff; [done|]. intros r. apply owned_by_Some.
Qed.

Section complete_algebra.
Implicit Types (d : db) (r : task).

Lemma exec_complete_fits now (task_id : Z) user_id d :
  INT64_MIN ≤ task_id ≤ INT64_MAX →
  exec (OpComplete now task_id user_id) d
  = Db ((λ r, if complete_where task_id user_id r
              then set_completed now r else r) <$> tasks_table d)
       (sqlite_sequence d).
Proof. intros H. unfold exec. by rewrite complete_task_fits. Qed.

Lemma exec_complete_overflow now (task_id : Z) user_id d :
  ¬ (INT64_MIN ≤ task_id ≤ INT64_MAX) →
  exec (OpComplete now task_id user_id) d = d.
Proof. intros H. unfold exec. by rewrite complete_task_overflow. Qed.

Lemma complete_where_other_id (i j : Z) u v r :
  i ≠ j → complete_where i u r = true → complete_where j v r = false.
Proof.
  intros Hij [Hi _]%andb_true_iff. apply bool_decide_eq_true in Hi.
  unfold complete_where. rewrite bool_decide_eq_false_2 by congruence. done.
Qed.
End complete_algebra.

(** X8. Completing is idempotent and completions of different tasks
    commute: running the same completion twice leaves the store as
    after the first run, and two completions of different ids give the
    same store in either order. *)
Theorem completions_commute (now1 now2 i j : Z) (u v : option string)
    (d : db) :
  exec (OpComplete now1 i u) (exec (OpComplete now1 i u) d)
  = exec (OpComplete now1 i u) d
  ∧ (i ≠ j →
     exec (OpComplete now1 i u) (exec (OpComplete now2 j v) d)
     = exec (OpComplete now2 j v) (exec (OpComplete now1 i u) d)).
Proof.
  split.
  - destruct (decide (INT64_MIN ≤ i ≤ INT64_MAX)) as [Hi|Hi].
    + rewrite !exec_complete_fits by done. simpl. f_equal.
      rewrite <-list_fmap_compose. apply list_fmap_ext. intros k r _. simpl.
      destruct (complete_where i u r) eqn:E.
      * by rewrite complete_where_set_completed, E.
      * by rewrite E.
    + by rewrite !exec_complete_overflow.
  - intros Hij.
    destruct (decide (INT64_MIN ≤ i ≤ INT64_MAX)) as [Hi|Hi];
      [|by rewrite !(exec_complete_overflow now1 i)].
    destruct (decide (INT64_MIN ≤ j ≤ INT64_MAX)) as [Hj|Hj];
      [|by rewrite !(exec_complete_overflow now2 j)].
    rewrite !exec_complete_fits by done. simpl. f_equal.
    rewrite <-!list_fmap_compose. apply list_fmap_ext. intros k r _. simpl.
    destruct (complete_where i u r) eqn:Ei,
             (complete_where j v r) eqn:Ej;
      rewrite ?complete_where_set_completed, ?Ei, ?Ej; try done.
    by rewrite (complete_where_other_id i j u v r Hij Ei) in Ej.
Qed.

Lemma completions_commute_witness :
  (1 : Z) ≠ 2
  ∧ exec (OpComplete 200 1 (Some "U1"))
         (exec (OpComplete 300 2 (Some "U1")) sample_db)
    = exec (OpComplete 300 2 (Some "U1"))
           (exec (OpComplete 200 1 (Some "U1")) sample_db).
Proof.
  assert (Hne : (1 : Z) ≠ 2) by lia.
  split; [exact Hne|].
  exact (proj2 (completions_commute 200 300 1 2 (Some "U1") (Some "U1")
                  sample_db) Hne).
Defined.

(** ** The JSON endpoints *)

(** X9. [GET /tasks] never changes the store.  With a non-empty
    [user_id] it lists exactly that user's tasks; with a missing or
    empty [user_id] it lists the tasks of every user, ownerless ones
    included. *)
Theorem tasks_get_scope (now : Z) (user_id : option string) (d : db) :
  ∃ listing,
    tasks now (GET user_id) d = (TaskList listing, d)
    ∧ StronglySorted (λ a b, col_created_at b ≤ col_created_at a) listing
    ∧ ∀ r, r ∈ listing
           ↔ r ∈ tasks_table d
             ∧ (user_id = None ∨ user_id = Some ""
                ∨ col_user_id r = user_id).
Proof.
  unfold tasks, tasks_try. simpl. eexists. split; [done|].
  destruct user_id as [u|]; simpl.
  - case_bool_decide as Hu; simpl.
    + subst u. split; [apply order_by_Sorted|].
      intros r. rewrite elem_of_get_all_tasks. naive_solver.
    + split; [apply order_by_Sorted|].
      intros r. rewrite elem_of_get_user_tasks. naive_solver.
  - split; [apply order_by_Sorted|].
    intros r. rewrite elem_of_get_all_tasks. naive_solver.
Qed.

(** X10. [POST /tasks], for a body that [get_json] cannot read or
    that is false for Python or an object whose fields are text, null
    or missing.  When [get_json] raises, the answer is 500.  A false
    body and a body without the key [title] are answered 400.  A null
    title is answered 500.  A text title is answered 201 when an
    unused id is left, and one pending row is appended with that
    title, the description (empty when missing), the owner
    (["api_user"] when missing) and the channel; it is answered 500
    when no id is left.  The store changes only together with a 201. *)
Theorem tasks_post_outcomes (now : Z) (body : py (option task_post))
    (d : db) :
  (∀ e, body = Raise e →
     tasks_post_json now body d
     = (TasksError "Failed to process task request" 500, d))
  ∧ (body = Ret None
     ∨ (∃ data, body = Ret (Some data) ∧ post_title data = Absent) →
     tasks_post_json now body d = (TasksError "Title is required" 400, d))
  ∧ (∀ data, body = Ret (Some data) → post_title data = Null →
       tasks_post_json now body d
       = (TasksError "Failed to process task request" 500, d))
  ∧ (∀ data title, body = Ret (Some data) → post_title data = Str title →
       (high d < INT64_MAX →
        tasks_post_json now body d
        = (TaskCreated (high d + 1) "Task created successfully",
           Db (tasks_table d
                 ++ [Task (high d + 1) title
                          (get_default (post_description data) "")
                          "pending" now now
                          (get_default (post_user_id data) "api_user")
                          (get (post_channel_id data))])
              (high d + 1)))
       ∧ (¬ high d < INT64_MAX →
          tasks_post_json now body d
          = (TasksError "Failed to process task request" 500, d)))
  ∧ (tasks_http (tasks_post_json now body d).1 ≠ 201 →
     (tasks_post_json now body d).2 = d).
Proof.
  assert (Hrun : ∀ data title, post_title data = Str title →
       high d < INT64_MAX →
       tasks now (POST (Some data)) d
       = (TaskCreated (high d + 1) "Task created successfully",
          Db (tasks_table d
                ++ [Task (high d + 1) title
                         (get_default (post_description data) "")
                         "pending" now now
                         (get_default (post_user_id data) "api_user")
                         (get (post_channel_id data))])
             (high d + 1))).
  { intros data title Htitle Hroom. unfold tasks, tasks_try.
    rewrite Htitle. simpl.
    assert (create_task now (Some title)
              (get_default (post_user_id data) DEFAULT_USER)
              (get (post_channel_id data))
              (get_default (post_description data) "") d
            = Ret (high d + 1, Db (tasks_table d
                ++ [Task (high d + 1) title
                         (get_default (post_description data) "")
                         "pending" now now
                         (get_default (post_user_id data) DEFAULT_USER)
                         (get (post_channel_id data))])
             (high d + 1))) as Hcreate
      by (apply create_task_Ret; by exists title).
    unfold create_task in Hcreate |- *. by rewrite Hcreate. }
  assert (Hfull : ∀ data title, post_title data = Str title →
       ¬ high d < INT64_MAX →
       tasks now (POST (Some data)) d
       = (TasksError "Failed to process task request" 500, d)).
  { intros data title Htitle Hno. unfold tasks, tasks_try.
    rewrite Htitle. simpl. by rewrite next_rowid_full. }
  split_and!.
  - by intros e ->.
  - intros [->|(data & -> & Htitle)]; [done|].
    unfold tasks_post_json, tasks, tasks_try. by rewrite Htitle.
  - intros data -> Htitle.
    unfold tasks_post_json, tasks, tasks_try. by rewrite Htitle.
  - intros data title -> Htitle. simpl. split; intros ?; eauto.
  - destruct body as [[data|]|e]; simpl; [|done|done].
    destruct (post_title data) as [| |title] eqn:Htitle.
    + unfold tasks, tasks_try. by rewrite Htitle.
    + unfold tasks, tasks_try. by rewrite Htitle.
    + destruct (decide (high d < INT64_MAX)) as [Hroom|Hno].
      * by rewrite (Hrun data title Htitle Hroom).
      * by rewrite (Hfull data title Htitle Hno).
Qed.

Lemma tasks_post_outcomes_witness :
  tasks_post_json 100 (Raise OtherError) sample_db
  = (TasksError "Failed to process task request" 500, sample_db)
  ∧ high (init_db None) < INT64_MAX
  ∧ tasks_post_json 100
      (Ret (Some (TaskPost (Str "a") Absent (Str "U1") Absent)))
      (init_db None)
    = (TaskCreated 1 "Task created successfully",
       Db [Task 1 "a" (Some "") "pending" 100 100 (Some "U1") None] 1).
Proof.
  assert (Hroom : high (init_db None) < INT64_MAX) by (vm_compute; done).
  split_and!; [|exact Hroom|].
  - exact (proj1 (tasks_post_outcomes 100 (Raise OtherError) sample_db)
             OtherError eq_refl).
  - destruct (tasks_post_outcomes 100
                (Ret (Some (TaskPost (Str "a") Absent (Str "U1") Absent)))
                (init_db None)) as (_ & _ & _ & Htext & _).
    exact (proj1 (Htext _ "a" eq_refl eq_refl) Hroom).
Defined.

(** X11. [POST /chat].  When [get_json] raises, the answer is 500 and
    the gateway is not called.  When [get_json] returns, the answer is
    never 500, whatever the gateway does: a false body and a body
    without the key [message] are answered 400 without a gateway call;
    every other body makes exactly one gateway call, with the message
    and the user id (["api_user"] when missing), and is answered 200
    with the gateway's text and the current time. *)
Theorem chat_outcomes (env : openai_env) (now : Z)
    (body : py (option chat_post)) :
  (∀ e, body = Raise e →
     chat_post_json env now body
     = (ChatError "Failed to process chat message" 500, []))
  ∧ (body = Ret None
     ∨ (∃ data, body = Ret (Some data) ∧ chat_message data = Absent) →
     chat_post_json env now body = (ChatError "Message is required" 400, []))
  ∧ (∀ data, body = Ret (Some data) → chat_message data ≠ Absent →
       ∃ text,
         chat_with_openai env (get (chat_message data))
           (get_default (chat_user_id data) "api_user") = Ret text
         ∧ chat_post_json env now body
           = (ChatResponse text now,
              [(get (chat_message data),
                get_default (chat_user_id data) "api_user")]))
  ∧ (chat_http (chat_post_json env now body).1 = 500
     ↔ ∃ e, body = Raise e)
  ∧ (chat_http (chat_post_json env now body).1 = 200
     ↔ length (chat_post_json env now body).2 = 1%nat).
Proof.
  assert (Hcall : ∀ data, chat_message data ≠ Absent →
       ∃ text,
         chat_with_openai env (get (chat_message data))
           (get_default (chat_user_id data) "api_user") = Ret text
         ∧ chat env now (Some data)
           = (ChatResponse text now,
              [(get (chat_message data),
                get_default (chat_user_id data) "api_user")])).
  { intros data Hmsg.
    destruct (chat_with_openai_returns env (get (chat_message data))
                (get_default (chat_user_id data) "api_user")) as [text Htext].
    exists text. split; [done|]. unfold chat, chat_try.
    rewrite bool_decide_eq_false_2 by done.
    unfold DEFAULT_USER. by rewrite Htext. }
  assert (Hnone : ∀ data, chat_message data = Absent →
       chat env now (Some data) = (ChatError "Message is required" 400, [])).
  { intros data Hmsg. unfold chat, chat_try.
    by rewrite bool_decide_eq_true_2. }
  split_and!.
  - by intros e ->.
  - intros [->|(data & -> & Hmsg)]; [done|]. by apply Hnone.
  - intros data -> Hmsg. by apply Hcall.
  - destruct body as [[data|]|e]; simpl.
    + destruct (decide (chat_message data = Absent)) as [Hmsg|Hmsg].
      * rewrite Hnone by done. simpl. split; [done|by intros [? ?]].
      * destruct (Hcall data Hmsg) as (text & _ & ->). simpl.
        split; [done|by intros [? ?]].
    + split; [done|by intros [? ?]].
    + split; [by exists e|done].
  - destruct body as [[data|]|e]; simpl; [|done|done].
    destruct (decide (chat_message data = Absent)) as [Hmsg|Hmsg].
    + by rewrite Hnone.
    + by destruct (Hcall data Hmsg) as (text & _ & ->).
Qed.

Lemma chat_outcomes_witness :
  chat_post_json no_openai 100 (Raise OtherError)
  = (ChatError "Failed to process chat message" 500, [])
  ∧ chat_message (ChatPost (Str "hello") Absent) ≠ Absent
  ∧ ∃ text,
      chat_post_json no_openai 100 (Ret (Some (ChatPost (Str "hello") Absent)))
      = (ChatResponse text 100, [(Some "hello", Some "api_user")]).
Proof.
  assert (Hmsg : chat_message (ChatPost (Str "hello") Absent) ≠ Absent)
    by discriminate.
  split_and!; [|exact Hmsg|].
  - exact (proj1 (chat_outcomes no_openai 100 (Raise OtherError))
             OtherError eq_refl).
  - destruct (chat_outcomes no_openai 100
                (Ret (Some (ChatPost (Str "hello") Absent))))
      as (_ & _ & Hcall & _).
    destruct (Hcall _ eq_refl Hmsg) as (text & _ & Hchat).
    exists text. exact Hchat.
Defined.

(** ** The slash commands *)

(** X12. Only [/task] touches the store and only [/ai] with a text
    calls the gateway: for any other command the reply is
    "Unknown command"; [/ai] without text asks for a message; [/ai]
    with text calls the gateway once with the text and the user and
    shows its answer in the channel.  In all these cases the status is
    200 and the store is as before. *)
Theorem slack_commands_non_task (env : openai_env) (now : Z)
    (form : command_form) (d : db) :
  (form_command form ≠ Some "/task" →
   (slack_commands env now form d).1.2 = d
   ∧ reply_http (slack_commands env now form d).1.1 = 200)
  ∧ ((slack_commands env now form d).2 ≠ []
     ↔ form_command form = Some "/ai"
       ∧ form_text form ≠ None ∧ form_text form ≠ Some "")
  ∧ (form_command form = Some "/ai" →
     ∀ text, form_text form = Some text → text ≠ "" →
       ∃ answer,
         chat_with_openai env (Some text) (form_user_id form) = Ret answer
         ∧ slack_commands env now form d
           = (SlackReply answer "in_channel" 200, d,
              [(Some text, form_user_id form)]))
  ∧ (form_command form = Some "/ai" →
     form_text form = None ∨ form_text form = Some "" →
     slack_commands env now form d
     = (SlackReply "Please provide a message to chat with the AI assistant."
                   "ephemeral" 200, d, []))
  ∧ (form_command form ≠ Some "/ai" → form_command form ≠ Some "/task" →
     slack_commands env now form d
     = (SlackReply "Unknown command" "ephemeral" 200, d, [])).
Proof.
  destruct form as [command text u channel_id]. simpl.
  assert (Hai : command = Some "/ai" →
     ∀ t, text = Some t → t ≠ "" →
       ∃ answer,
         chat_with_openai env (Some t) u = Ret answer
         ∧ slack_commands env now (CommandForm command text u channel_id) d
           = (SlackReply answer "in_channel" 200, d, [(Some t, u)])).
  { intros -> t -> Ht.
    destruct (chat_with_openai_returns env (Some t) u) as [answer Hanswer].
    exists answer. split; [done|].
    unfold slack_commands, slack_commands_try. simpl.
    rewrite bool_decide_eq_false_2 by done. by rewrite Hanswer. }
  assert (Hempty : command = Some "/ai" → text = None ∨ text = Some "" →
     slack_commands env now (CommandForm command text u channel_id) d
     = (SlackReply "Please provide a message to chat with the AI assistant."
                   "ephemeral" 200, d, [])).
  { by intros -> [-> | ->]. }
  assert (Hunknown : command ≠ Some "/ai" → command ≠ Some "/task" →
     slack_commands env now (CommandForm command text u channel_id) d
     = (SlackReply "Unknown command" "ephemeral" 200, d, [])).
  { intros H1 H2. unfold slack_commands, slack_commands_try. simpl.
    by rewrite !bool_decide_eq_false_2. }
  assert (Htask : command = Some "/task" →
     (slack_commands env now (CommandForm command text u channel_id) d).2
     = []).
  { intros ->. unfold slack_commands, slack_commands_try. simpl.
    by case_bool_decide. }
  assert (Hcases : command = Some "/task"
                   ∨ (command ≠ Some "/ai" ∧ command ≠ Some "/task")
                   ∨ (command = Some "/ai" ∧ (text = None ∨ text = Some ""))
                   ∨ (command = Some "/ai"
                      ∧ ∃ t, text = Some t ∧ t ≠ "")).
  { destruct (decide (command = Some "/task")); [by left|right].
    destruct (decide (command = Some "/ai")); [right|by left].
    destruct text as [t|]; [|left; by split; [|left]].
    destruct (decide (t = "")) as [->|]; [left; by split; [|right]|].
    right. split; [done|]. by exists t. }
  split_and!; [| |done|done|done].
  - intros Hnot.
    destruct Hcases as [?|[[H1 H2]|[[H1 H2]|[H1 (t & Ht & Hne)]]]]; [done|..].
    + by rewrite (Hunknown H1 H2).
    + by rewrite (Hempty H1 H2).
    + by destruct (Hai H1 t Ht Hne) as (answer & _ & ->).
  - destruct Hcases as [H|[[H1 H2]|[[H1 H2]|[H1 (t & Ht & Hne)]]]].
    + rewrite (Htask H). split; [done|]. intros [? _]. congruence.
    + rewrite (Hunknown H1 H2). simpl. split; [done|]. by intros [? _].
    + rewrite (Hempty H1 H2). simpl. split; [done|].
      intros (_ & ? & ?). by destruct H2.
    + destruct (Hai H1 t Ht Hne) as (answer & _ & ->). simpl.
      split; [intros _|done]. split_and!; [done|congruence|congruence].
Qed.

Lemma slack_commands_non_task_witness :
  form_command (CommandForm (Some "/weather") (Some "x") (Some "U1") None)
    ≠ Some "/task"
  ∧ (slack_commands no_openai 100
       (CommandForm (Some "/weather") (Some "x") (Some "U1") None)
       sample_db).1.2 = sample_db.
Proof.
  assert (Hcmd : form_command
                   (CommandForm (Some "/weather") (Some "x") (Some "U1") None)
                 ≠ Some "/task") by discriminate.
  split; [exact Hcmd|].
  exact (proj1 (proj1 (slack_commands_non_task no_openai 100
                         (CommandForm (Some "/weather") (Some "x")
                                      (Some "U1") None) sample_db) Hcmd)).
Defined.

(** X13. Whatever texts the builtin [int] accepts and whatever numbers
    it reads from them: a [/task] command is answered with status 500
    in exactly two cases, a [create] when the store has run out of ids,
    and a [complete] whose rest [int] reads as a number that does not
    fit SQLite's 64-bit integer.  The reply is then the generic error
    text and the store is unchanged; every other [/task] command is
    answered with status 200. *)
Theorem task_command_500_iff (int_ : string → option Z) (env : openai_env)
    (now : Z) (text : string) (user_id channel_id : option string) (d : db) :
  let result :=
    slack_commands_with int_ env now
      (CommandForm (Some "/task") (Some text) user_id channel_id) d in
  (reply_http result.1.1 = 500
   ↔ (∃ title, route_with int_ text = Create title ∧ ¬ high d < INT64_MAX)
     ∨ (∃ n, route_with int_ text = Complete n
             ∧ ¬ (INT64_MIN ≤ n ≤ INT64_MAX)))
  ∧ (reply_http result.1.1 = 500 →
     result = (SlackReply "An error occurred processing your command."
                          "ephemeral" 500, d, []))
  ∧ (reply_http result.1.1 = 500 ∨ reply_http result.1.1 = 200).
Proof.
  intros result. unfold result. rewrite slack_commands_with_task.
  destruct (route_with int_ text) as [title| |n|message|message] eqn:Hroute;
    unfold dispatch.
  - destruct (decide (high d < INT64_MAX)) as [Hroom|Hfull].
    + assert (create_task now (Some title) user_id channel_id (Some "") d
              = Ret (high d + 1,
                     Db (tasks_table d
                           ++ [Task (high d + 1) title (Some "") "pending"
                                    now now user_id channel_id])
                        (high d + 1))) as ->
        by (apply create_task_Ret; by exists title).
      simpl. split_and!; [|done|by right].
      split; [done|]. intros [(t & _ & ?)|(m & ? & _)]; done.
    + unfold create_task. rewrite next_rowid_full by done. simpl.
      split_and!; [|done|by left].
      split; [intros _; left; by exists title|done].
  - simpl. split_and!; [|done|by right].
    split; [done|]. by intros [(t & ? & _)|(m & ? & _)].
  - destruct (decide (INT64_MIN ≤ n ≤ INT64_MAX)) as [Hfit|Hbig].
    + rewrite complete_task_fits by done. simpl.
      destruct (bool_decide _); simpl; (split_and!; [|done|by right]);
        (split; [done|]);
        intros [(t & ? & _)|(m & [= <-] & ?)]; done.
    + rewrite complete_task_overflow by done. simpl.
      split_and!; [|done|by left].
      split; [intros _; right; by exists n|done].
  - simpl. split_and!; [|done|by right].
    split; [done|]. by intros [(t & ? & _)|(m & ? & _)].
  - simpl. split_and!; [|done|by right].
    split; [done|]. by intros [(t & ? & _)|(m & ? & _)].
Qed.

Lemma task_command_500_iff_witness :
  route_with int_literal "complete 9223372036854775808"
  = Complete 9223372036854775808
  ∧ ¬ (INT64_MIN ≤ 9223372036854775808 ≤ INT64_MAX)
  ∧ reply_http
      (slack_commands_with int_literal no_openai 100
         (CommandForm (Some "/task") (Some "complete 9223372036854775808")
                      (Some "U1") None) sample_db).1.1 = 500.
Proof.
  assert (Hroute : route_with int_literal "complete 9223372036854775808"
                   = Complete 9223372036854775808) by reflexivity.
  assert (Hbig : ¬ (INT64_MIN ≤ 9223372036854775808 ≤ INT64_MAX))
    by (unfold INT64_MAX; lia).
  split_and!; [exact Hroute|exact Hbig|].
  apply (proj1 (task_command_500_iff int_literal no_openai 100
                  "complete 9223372036854775808" (Some "U1") None sample_db)).
  right. exists 9223372036854775808. split; [exact Hroute|exact Hbig].
Defined.

Section split.
Implicit Types (s : string).

Lemma cut_at_space_spec s :
  match cut_at_space s with
  | (a, Some r) => s = a +:+ " " +:+ r ∧ has_space a = false
  | (a, None) => s = a ∧ has_space a = false
  end.
Proof.
  induction s as [|c s IH]; [done|]. simpl.
  case_bool_decide as Hc.
  - subst c. done.
  - destruct (cut_at_space s) as [a [r|]]; simpl;
      destruct IH as [-> Ha]; rewrite (bool_decide_eq_false_2 _ Hc); done.
Qed.
End split.

(** X14. [text.split(' ', 1)] loses nothing: it gives one or two
    parts, the first one has no space in it, and joining the parts with
    a single space gives the text back. *)
Theorem split_space_1_join (text : string) :
  join " " (split_space_1 text) = text
  ∧ ((∃ action, split_space_1 text = [action] ∧ has_space action = false
                ∧ has_space text = false)
     ∨ (∃ action rest, split_space_1 text = [action; rest]
                       ∧ has_space action = false
                       ∧ has_space text = true)).
Proof.
  pose proof (cut_at_space_spec text) as Hcut. unfold split_space_1.
  destruct (cut_at_space text) as [a [r|]].
  - destruct Hcut as [-> Ha]. split; [done|].
    right. exists a, r. split_and!; [done|done|].
    clear Ha. induction a as [|c a IH]; [done|]. simpl.
    rewrite IH. apply orb_true_r.
  - destruct Hcut as [-> Ha]. split; [done|]. left. by exists a.
Qed.


Lemma complete_created now now' (title u : string)
    (channel_id description : option string) (d : db) :
  high d < INT64_MAX →
  complete_task now' (high d + 1) (Some u)
    (Db (tasks_table d
           ++ [Task (high d + 1) title description "pending" now now
                    (Some u) channel_id])
        (high d + 1))
  = Ret (true,
         Db (tasks_table d
               ++ [Task (high d + 1) title description "completed" now now'
                        (Some u) channel_id])
            (high d + 1)).
Proof.
  intros Hroom.
  assert (Hfit : INT64_MIN ≤ high d + 1 ≤ INT64_MAX).
  { pose proof (high_nonneg d). unfold INT64_MIN. lia. }
  rewrite complete_task_fits by done. simpl. f_equal. f_equal.
  - apply bool_decide_eq_true, rowcount_pos.
    eexists. split; [apply elem_of_app; right; left|].
    by apply complete_where_Some.
  - f_equal. rewrite fmap_app. f_equal.
    + apply update_no_hit. intros r Hr%high_ge. unfold complete_where.
      rewrite bool_decide_eq_false_2 by lia. done.
    + simpl. unfold complete_where, owned_by. simpl.
      by rewrite !bool_decide_eq_true_2.
Qed.

(** X15. The id a user is shown is the id that works: printing an
    integer and reading it with [int] gives the integer back, so when
    [/task create <title>] answers "Task created with ID: i", the same
    user's [/task complete i] answers "Task #i marked as complete!" and
    leaves exactly that task completed. *)
Theorem created_id_completes (env : openai_env) (now now' : Z)
    (title u : string) (channel_id : option string) (d : db) :
  high d < INT64_MAX →
  (∀ n : Z, int_literal (pretty n) = Some n)
  ∧ ∃ i d1 d2,
      slack_commands env now
        (CommandForm (Some "/task") (Some ("create " +:+ title)) (Some u)
                     channel_id) d
      = (SlackReply ("Task created with ID: " +:+ pretty i) "in_channel" 200,
         d1, [])
      ∧ slack_commands env now'
          (CommandForm (Some "/task") (Some ("complete " +:+ pretty i))
                       (Some u) channel_id) d1
        = (SlackReply ("Task #" +:+ pretty i +:+ " marked as complete!")
                      "in_channel" 200,
           d2, [])
      ∧ tasks_table d2
        = (tasks_table d
             ++ [Task i title (Some "") "completed" now now' (Some u)
                      channel_id])%list.
Proof.
  intros Hroom. split; [apply int_literal_pretty|].
  exists (high d + 1),
    (Db (tasks_table d
           ++ [Task (high d + 1) title (Some "") "pending" now now (Some u)
                    channel_id])
        (high d + 1)),
    (Db (tasks_table d
           ++ [Task (high d + 1) title (Some "") "completed" now now'
                    (Some u) channel_id])
        (high d + 1)).
  split_and!; [| |done].
  - rewrite slack_commands_task.
    change ("create " +:+ title) with ("create" +:+ " " +:+ title).
    rewrite route_app by done. simpl.
    assert (create_task now (Some title) (Some u) channel_id (Some "") d
            = Ret (high d + 1,
                   Db (tasks_table d
                         ++ [Task (high d + 1) title (Some "") "pending"
                                  now now (Some u) channel_id])
                      (high d + 1))) as Hcreate
      by (apply create_task_Ret; by exists title).
    unfold create_task in Hcreate |- *. by rewrite Hcreate.
  - rewrite slack_commands_task.
    change ("complete " +:+ pretty (high d + 1))
      with ("complete" +:+ " " +:+ pretty (high d + 1)).
    rewrite route_app by done. simpl. rewrite int_literal_pretty.
    unfold dispatch. by rewrite complete_created.
Qed.

Lemma created_id_completes_witness :
  high (init_db None) < INT64_MAX
  ∧ int_literal (pretty (42 : Z)) = Some 42.
Proof.
  assert (Hroom : high (init_db None) < INT64_MAX) by (vm_compute; done).
  split; [exact Hroom|].
  exact (proj1 (created_id_completes no_openai 100 200 "a" "U1" None
                  (init_db None) Hroom) 42).
Defined.

(** ** The event webhook *)

(** The URL-verification handshake: a payload of type
    [url_verification] is answered with its own challenge (or null when
    it has none), whatever else it carries, and a body that is false
    for Python (null, an empty object) is answered with status 400;
    neither calls the gateway. *)
Theorem slack_events_handshake (env : openai_env) (data : events_payload) :
  slack_events env None = (EventsError "No data received" 400, [])
  ∧ (get (payload_type data) = Some "url_verification" →
     slack_events env (Some data)
     = (EventsChallenge (get (payload_challenge data)), [])).
Proof.
  split; [done|]. intros Htype. unfold slack_events, slack_events_try.
  by rewrite bool_decide_eq_true_2.
Qed.

Lemma slack_events_handshake_witness :
  get (payload_type
         (EventsPayload (Str "url_verification") (Str "3eZbrw1a") None))
  = Some "url_verification"
  ∧ slack_events no_openai
      (Some (EventsPayload (Str "url_verification") (Str "3eZbrw1a") None))
    = (EventsChallenge (Some "3eZbrw1a"), []).
Proof.
  assert (Htype : get (payload_type
            (EventsPayload (Str "url_verification") (Str "3eZbrw1a") None))
          = Some "url_verification") by reflexivity.
  split; [exact Htype|].
  exact (proj2 (slack_events_handshake no_openai _) Htype).
Defined.

(** The body read from the request and the body of [slack_events] as
    modelled first agree on the bodies they share. *)
Lemma slack_events_request_agrees (env : openai_env)
    (data : option events_payload) :
  slack_events_request env (events_body_of data) = slack_events env data.
Proof.
  unfold slack_events_request, slack_events, slack_events_request_try,
    slack_events_try.
  destruct data as [[type challenge [[etype bot_id user channel text]|]]|];
    simpl; [| |done].
  - case_bool_decide; [done|]. simpl.
    destruct (bool_decide (get etype = Some "message")
              && negb (truthy (get bot_id))); [|done].
    by destruct text.
  - by case_bool_decide.
Qed.

(** X16. The event webhook, once the request has passed the signature
    check.  A request makes at most one gateway call, and only a
    request that is acknowledged with "ok" makes one.  It is answered
    400 exactly when the body is false for Python.  It is answered 500
    exactly when [get_json] raises, or the body is a true value that
    is no object, or the payload is no [url_verification] and its
    [event] is no object (null, for one) or is a message without bot
    id whose [text] is no text (null, for one).  An event without a
    [text] key is read as an empty text and acknowledged. *)
Theorem slack_events_outcomes (env : openai_env) (body : events_body) :
  (length (slack_events_request env body).2 ≤ 1)%nat
  ∧ ((slack_events_request env body).2 ≠ [] →
     (slack_events_request env body).1 = EventsOk)
  ∧ (events_http (slack_events_request env body).1 = 400
     ↔ body = BodyFalsy)
  ∧ (events_http (slack_events_request env body).1 = 500
     ↔ body = BodyUnreadable ∨ body = BodyNotObject
       ∨ ∃ type challenge event,
           body = BodyObject type challenge event
           ∧ get type ≠ Some "url_verification"
           ∧ (event = EventNotObject
              ∨ ∃ event_type bot_id user,
                  event = EventObject event_type bot_id user TextNotText
                  ∧ get event_type = Some "message"
                  ∧ truthy (get bot_id) = false))
  ∧ (events_http (slack_events_request env body).1 = 500 →
     slack_events_request env body = (EventsError "Internal error" 500, []))
  ∧ (∀ type challenge event_type bot_id user,
       get type ≠ Some "url_verification" →
       slack_events_request env
         (BodyObject type challenge
            (EventObject event_type bot_id user TextMissing))
       = (EventsOk, [])).
Proof.
  assert (Hmissing : ∀ type challenge event_type bot_id user,
       get type ≠ Some "url_verification" →
       slack_events_request env
         (BodyObject type challenge
            (EventObject event_type bot_id user TextMissing))
       = (EventsOk, [])).
  { intros type challenge etype bot_id user Htype.
    unfold slack_events_request, slack_events_request_try.
    rewrite bool_decide_eq_false_2 by done. simpl.
    by destruct (bool_decide (get etype = Some "message")
                 && negb (truthy (get bot_id))). }
  assert (Hok : ∀ (P : Prop) (reply : events_reply)
                  (calls : list gateway_call),
    (length calls ≤ 1)%nat → (calls ≠ [] → reply = EventsOk) →
    events_http reply = 200 → ¬ P →
    (length calls ≤ 1)%nat ∧ (calls ≠ [] → reply = EventsOk)
    ∧ (events_http reply = 400 ↔ False)
    ∧ (events_http reply = 500 ↔ P)
    ∧ (events_http reply = 500
       → (reply, calls) = (EventsError "Internal error" 500, []))).
  { intros P reply calls ? ? Hreply HP. rewrite Hreply.
    split_and!; [done|done|done|split; [done|by intros ?%HP]|done]. }
  assert (Hshape : ∀ (P Q : Prop),
    (length (slack_events_request env body).2 ≤ 1)%nat
    ∧ ((slack_events_request env body).2 ≠ [] →
       (slack_events_request env body).1 = EventsOk)
    ∧ (events_http (slack_events_request env body).1 = 400 ↔ Q)
    ∧ (events_http (slack_events_request env body).1 = 500 ↔ P)
    ∧ (events_http (slack_events_request env body).1 = 500 →
       ((slack_events_request env body).1, (slack_events_request env body).2)
       = (EventsError "Internal error" 500, [])) →
    (Q ↔ body = BodyFalsy) →
    (P ↔ body = BodyUnreadable ∨ body = BodyNotObject
       ∨ ∃ type challenge event,
           body = BodyObject type challenge event
           ∧ get type ≠ Some "url_verification"
           ∧ (event = EventNotObject
              ∨ ∃ event_type bot_id user,
                  event = EventObject event_type bot_id user TextNotText
                  ∧ get event_type = Some "message"
                  ∧ truthy (get bot_id) = false)) →
    (length (slack_events_request env body).2 ≤ 1)%nat
    ∧ ((slack_events_request env body).2 ≠ [] →
       (slack_events_request env body).1 = EventsOk)
    ∧ (events_http (slack_events_request env body).1 = 400
       ↔ body = BodyFalsy)
    ∧ (events_http (slack_events_request env body).1 = 500
       ↔ body = BodyUnreadable ∨ body = BodyNotObject
         ∨ ∃ type challenge event,
             body = BodyObject type challenge event
             ∧ get type ≠ Some "url_verification"
             ∧ (event = EventNotObject
                ∨ ∃ event_type bot_id user,
                    event = EventObject event_type bot_id user TextNotText
                    ∧ get event_type = Some "message"
                    ∧ truthy (get bot_id) = false))
    ∧ (events_http (slack_events_request env body).1 = 500 →
       slack_events_request env body
       = (EventsError "Internal error" 500, []))).
  { intros P Q (H1 & H2 & H3 & H4 & H5) HQ HP.
    split_and!; [done|done|by rewrite H3|by rewrite H4|].
    intros H500. rewrite <- (H5 H500).
    by destruct (slack_events_request env body). }
  cut ((length (slack_events_request env body).2 ≤ 1)%nat
    ∧ ((slack_events_request env body).2 ≠ [] →
       (slack_events_request env body).1 = EventsOk)
    ∧ (events_http (slack_events_request env body).1 = 400
       ↔ body = BodyFalsy)
    ∧ (events_http (slack_events_request env body).1 = 500
       ↔ body = BodyUnreadable ∨ body = BodyNotObject
         ∨ ∃ type challenge event,
             body = BodyObject type challenge event
             ∧ get type ≠ Some "url_verification"
             ∧ (event = EventNotObject
                ∨ ∃ event_type bot_id user,
                    event = EventObject event_type bot_id user TextNotText
                    ∧ get event_type = Some "message"
                    ∧ truthy (get bot_id) = false))
    ∧ (events_http (slack_events_request env body).1 = 500 →
       slack_events_request env body
       = (EventsError "Internal error" 500, []))).
  { intros (H1 & H2 & H3 & H4 & H5). by split_and!. }
  clear Hmissing.
  destruct body as [| | |type challenge event].
  - split_and!; [simpl; lia|done|done|split; [by left|done]|done].
  - split_and!; [simpl; lia|done|done| |done].
    split; [done|]. by intros [?|[?|(?&?&?&?&_)]].
  - split_and!; [simpl; lia|done|done|split; [by right; left|done]|done].
  - destruct (decide (get type = Some "url_verification")) as [Htype|Htype].
    { eapply Hshape.
      - unfold slack_events_request, slack_events_request_try.
        rewrite bool_decide_eq_true_2 by done.
        apply (Hok False _ []); [simpl; lia|done|done|tauto].
      - done.
      - split; [done|].
        intros [?|[?|(t & c & e & [= <- <- <-] & ? & _)]]; done. }
    destruct event as [| |etype bot_id user text].
    + eapply Hshape.
      * unfold slack_events_request, slack_events_request_try.
        rewrite bool_decide_eq_false_2 by done.
        apply (Hok False _ []); [simpl; lia|done|done|tauto].
      * done.
      * split; [done|].
        intros [?|[?|(t & c & e & [= <- <- <-] & _ & [?|(?&?&?&?&_)])]];
          done.
    + unfold slack_events_request, slack_events_request_try.
      rewrite bool_decide_eq_false_2 by done. simpl.
      split_and!; [lia|done|done| |done].
      split; [|done]. intros _. right; right.
      exists type, challenge, EventNotObject. split_and!; [done|done|by left].
    + destruct (decide (get etype = Some "message"
                        ∧ truthy (get bot_id) = false)) as [[Hm Hb]|Hno].
      2: { eapply Hshape.
           - unfold slack_events_request, slack_events_request_try.
             rewrite bool_decide_eq_false_2 by done. simpl.
             assert (bool_decide (get etype = Some "message")
                     && negb (truthy (get bot_id)) = false) as ->.
             { apply andb_false_iff.
               destruct (decide (get etype = Some "message")) as [?|?];
                 [right|left; by apply bool_decide_eq_false_2].
               destruct (truthy (get bot_id)); [done|]. by destruct Hno. }
             apply (Hok False _ []); [simpl; lia|done|done|tauto].
           - done.
           - split; [done|].
             intros [?|[?|(t & c & e & [= <- <- <-] & _
                           & [?|(?&?&?& [= <- <- <- ->] &?&?)])]]; try done.
             by destruct Hno. }
      unfold slack_events_request, slack_events_request_try.
      rewrite bool_decide_eq_false_2 by done. simpl.
      rewrite bool_decide_eq_true_2, Hb by done. simpl.
      destruct text as [| |text]; simpl.
      * split_and!; [lia|done|done| |done].
        split; [done|].
        intros [?|[?|(t & c & e & [= <- <- <-] & _
                      & [?|(?&?&?& ? &?&?)])]]; done.
      * split_and!; [lia|done|done| |done].
        split; [|done]. intros _. right; right.
        exists type, challenge, (EventObject etype bot_id user TextNotText).
        split_and!; [done|done|]. right. by exists etype, bot_id, user.
      * destruct (contains TRIGGER (lower text)); simpl.
        -- destruct (chat_with_openai_returns env (Some text) (get user))
             as [answer ->]. simpl.
           split_and!; [lia|done|done| |done].
           split; [done|].
           intros [?|[?|(t & c & e & [= <- <- <-] & _
                         & [?|(?&?&?& ? &?&?)])]]; done.
        -- split_and!; [lia|done|done| |done].
           split; [done|].
           intros [?|[?|(t & c & e & [= <- <- <-] & _
                         & [?|(?&?&?& ? &?&?)])]]; done.
Qed.

Lemma slack_events_outcomes_witness :
  (slack_events_request no_openai (events_body_of (Some trigger_payload))).2
  ≠ []
  ∧ (slack_events_request no_openai
       (events_body_of (Some trigger_payload))).1 = EventsOk
  ∧ slack_events_request no_openai
      (BodyObject (Str "event_callback") Absent EventNotObject)
    = (EventsError "Internal error" 500, []).
Proof.
  assert (Hcalled :
    (slack_events_request no_openai
       (events_body_of (Some trigger_payload))).2 ≠ []) by discriminate.
  split_and!; [exact Hcalled| |reflexivity].
  exact (proj1 (proj2 (slack_events_outcomes no_openai
                         (events_body_of (Some trigger_payload)))) Hcalled).
Defined.

(** ** Signed requests *)

Section signing.
Variable hmac_sha256 : string → string → string.
Implicit Types (secret timestamp signature : option string).

Lemma require_slack_verification_passed {R} secret timestamp signature
    (request_data : string) (f : R) :
  truthy secret = true →
  (∃ r, require_slack_verification hmac_sha256 secret timestamp signature
          request_data f = Passed r)
  ↔ default "" timestamp ≠ ""
    ∧ is_ascii (default "" signature) = true
    ∧ is_ascii (hmac_sha256 (default "" secret)
                  ("v0:" +:+ default "" timestamp +:+ ":" +:+ request_data))
      = true
    ∧ default "" signature
      = "v0=" +:+ hmac_sha256 (default "" secret)
                    ("v0:" +:+ default "" timestamp +:+ ":" +:+ request_data).
Proof.
  intros Hsecret.
  unfold require_slack_verification, verify_slack_signature, compare_digest.
  rewrite Hsecret. cbn [negb].
  set (h := hmac_sha256 (default "" secret)
              ("v0:" +:+ default "" timestamp +:+ ":" +:+ request_data)).
  change (is_ascii ("v0=" +:+ h)) with (is_ascii h).
  case_bool_decide as Hts; simpl.
  { split; [by intros [r ?]|]. by intros [? _]. }
  case_bool_decide as Hsig; simpl.
  { split; [by intros [r ?]|]. intros (_ & _ & _ & Heq).
    rewrite Hsig in Heq. done. }
  destruct (is_ascii h) eqn:Hh; simpl.
  2: { split; [by intros [r ?]|]. by intros (_ & _ & ? & _). }
  destruct (is_ascii (default "" signature)) eqn:Hs; simpl.
  2: { split; [by intros [r ?]|]. by intros (_ & ? & _). }
  case_bool_decide as Heq; simpl.
  - split; [done|]. intros _. by eexists.
  - split; [by intros [r ?]|]. intros (_ & _ & _ & Heq'). by destruct Heq.
Qed.
End signing.

(** X17. Request signing on [/slack/commands].  Without a signing
    secret every request reaches the handler, whatever its headers.
    With a secret, a request reaches the handler exactly when it has a
    timestamp and its signature is ["v0="] followed by the HMAC of
    ["v0:<timestamp>:<body>"] under the secret; the timestamp is not
    compared with the clock.  A request that is turned away gets status
    401, or 500 when the comparison itself fails, and neither changes
    the store nor calls the gateway. *)
Theorem slack_commands_signature_gate
    (hmac_sha256 : string → string → string)
    (secret timestamp signature : option string) (request_data : string)
    (env : openai_env) (now : Z) (form : command_form) (d : db) :
  let result :=
    slack_commands_endpoint hmac_sha256 secret timestamp signature
      request_data env now form d in
  (truthy secret = false →
   result = (Passed (slack_commands env now form d).1.1,
             (slack_commands env now form d).1.2,
             (slack_commands env now form d).2))
  ∧ (truthy secret = true →
     ((∃ reply, result.1.1 = Passed reply)
      ↔ default "" timestamp ≠ ""
        ∧ is_ascii (default "" signature) = true
        ∧ is_ascii (hmac_sha256 (default "" secret)
                      ("v0:" +:+ default "" timestamp +:+ ":"
                         +:+ request_data)) = true
        ∧ default "" signature
          = "v0=" +:+ hmac_sha256 (default "" secret)
                        ("v0:" +:+ default "" timestamp +:+ ":"
                           +:+ request_data)))
  ∧ (∀ error http, result.1.1 = Rejected error http →
       result.1.2 = d ∧ result.2 = []
       ∧ ((error = "Unauthorized" ∧ http = 401)
          ∨ (error = "Internal server error" ∧ http = 500)))
  ∧ (∀ reply, result.1.1 = Passed reply →
       result = (Passed (slack_commands env now form d).1.1,
                 (slack_commands env now form d).1.2,
                 (slack_commands env now form d).2)).
Proof.
  intros result. unfold result, slack_commands_endpoint.
  split_and!.
  - intros Hsecret. unfold require_slack_verification. rewrite Hsecret.
    simpl. by destruct (slack_commands env now form d) as [[??]?].
  - intros Hsecret.
    rewrite <-(require_slack_verification_passed hmac_sha256 secret timestamp
                 signature request_data (slack_commands env now form d))
      by done.
    destruct (require_slack_verification _ _ _ _ _ _) as [[[r d'] calls]|e h];
      simpl; split; try (by intros [? ?]); try (by eauto).
  - intros error http.
    unfold require_slack_verification, verify_slack_signature, compare_digest.
    destruct (slack_commands env now form d) as [[r d'] calls].
    destruct (truthy secret); simpl; [|done].
    repeat (case_bool_decide || case_match || simpl);
      intros Hrej; simplify_eq;
      (split_and!; [done|done|first [by left|by right]]).
  - intros reply.
    destruct (require_slack_verification _ _ _ _ _ _) as [[[r d'] calls]|e h]
      eqn:Hgate; simpl; [|done].
    intros _. unfold require_slack_verification in Hgate.
    destruct (negb (truthy secret)); [by injection Hgate as ->|].
    repeat (case_bool_decide || case_match); try done;
      by injection Hgate as ->.
Qed.

Lemma slack_commands_signature_gate_witness :
  truthy None = false
  ∧ slack_commands_endpoint (λ _ _, "ab") None None None "text=list"
      no_openai 100
      (CommandForm (Some "/task") (Some "list") (Some "U1") None) sample_db
    = (Passed (slack_commands no_openai 100
                 (CommandForm (Some "/task") (Some "list") (Some "U1") None)
                 sample_db).1.1,
       (slack_commands no_openai 100
          (CommandForm (Some "/task") (Some "list") (Some "U1") None)
          sample_db).1.2,
       (slack_commands no_openai 100
          (CommandForm (Some "/task") (Some "list") (Some "U1") None)
          sample_db).2).
Proof.
  assert (Hsecret : truthy None = false) by reflexivity.
  split; [exact Hsecret|].
  exact (proj1 (slack_commands_signature_gate (λ _ _, "ab") None None None
                  "text=list" no_openai 100
                  (CommandForm (Some "/task") (Some "list") (Some "U1") None)
                  sample_db) Hsecret).
Defined.

(** ** The list reply *)

Section listing.
Implicit Types (s : string) (l : list task).

Lemma append_inj_prefix s a b : s +:+ a = s +:+ b → a = b.
Proof.
  induction s as [|c s IH]; [done|].
  intros H. apply IH. by injection H.
Qed.

Lemma append_empty_r s : s +:+ "" = s.
Proof.
  induction s as [|c s IH]; [done|].
  change (String c (s +:+ "") = String c s). by rewrite IH.
Qed.

Lemma join_task_lines_head l t :
  ∃ s, join newline (task_line <$> (t :: l)) = String "#" s.
Proof.
  csimpl. destruct (task_line <$> l); by eexists.
Qed.
End listing.

(** X18. The reply to [/task list] says "No tasks found." exactly when
    the user has no task; otherwise the text after the heading starts
    with the line of the user's most recent task. *)
Theorem list_reply_empty_iff (user_id : option string) (d : db) :
  (reply_text (list_reply user_id d)
   = "Your tasks:" +:+ newline +:+ "No tasks found."
   ↔ get_user_tasks user_id d = [])
  ∧ (∀ t rest, get_user_tasks user_id d = t :: rest →
       ∃ more, reply_text (list_reply user_id d)
               = "Your tasks:" +:+ newline +:+ task_line t +:+ more)
  ∧ response_type (list_reply user_id d) = "ephemeral".
Proof.
  unfold list_reply. destruct (get_user_tasks user_id d) as [|t l] eqn:E.
  - split_and!; [done|done|done].
  - rewrite bool_decide_eq_false_2 by done. split_and!; [| |done].
    + unfold ephemeral. cbn [reply_text]. split; [|done]. intros H.
      apply append_inj_prefix, append_inj_prefix in H.
      destruct (join_task_lines_head l t) as [s Hs]. rewrite Hs in H.
      discriminate H.
    + intros t' rest [= <- <-]. unfold ephemeral. cbn [reply_text].
      destruct l as [|t2 l]; csimpl.
      * exists "". by rewrite append_empty_r.
      * by eexists.
Qed.

Lemma list_reply_empty_iff_witness :
  get_user_tasks (Some "U2") sample_db = []
  ∧ reply_text (list_reply (Some "U2") sample_db)
    = "Your tasks:" +:+ newline +:+ "No tasks found.".
Proof.
  assert (Hnone : get_user_tasks (Some "U2") sample_db = []) by reflexivity.
  split; [exact Hnone|].
  exact (proj2 (proj1 (list_reply_empty_iff (Some "U2") sample_db)) Hnone).
Defined.

Lemma tasks_get_scope_witness :
  ∃ listing,
    tasks 100 (GET (Some "")) sample_db = (TaskList listing, sample_db)
    ∧ sample_task ∈ listing.
Proof.
  destruct (tasks_get_scope 100 (Some "") sample_db)
    as (listing & Hget & _ & Hin).
  exists listing. split; [exact Hget|].
  apply Hin. split; [left|right; left; reflexivity].
Defined.
